(** * sqlite_tool_mcp_server: a shallow embedding and its properties

    The seven tools of [sqlite_tool/sqlite_tool_mcp_server.py] are embedded
    as computations in a small state-and-exception monad.  The [sqlite3]
    driver is not part of the program: it is a record of state-passing
    functions ([Env]) over which every statement is quantified.

    Scope of the model:
    - a [str] is represented by its UTF-8 encoding, a [string] of bytes;
    - [add_column] tests its arguments with [strip_u], which knows all the
      white space of [str.strip], and [upper_ascii], which is [str.upper]
      wherever the upper case is ASCII text; the statement of
      [execute_sql_query] is classified with the ASCII parts [strip] and
      [upper] of the two methods;
    - calls to [logger] are left out (they return nothing the code uses);
    - only exceptions deriving from [Exception] are modelled;
    - [conn.cursor()] and [conn.close()] do not raise. *)

From Stdlib Require Import String Ascii List ZArith NArith Lia Bool.
From Stdlib Require Import Permutation DecimalString.
Import ListNotations.
Open Scope string_scope.

(* ------------------------------------------------------------------ *)
(** ** The string methods the program calls *)

Module PyStr.

(** [str.isspace] on one ASCII character: TAB, LF, VT, FF, CR, the four
    separators FS, GS, RS, US and the space. *)
Definition is_space (c : ascii) : bool :=
  let n := N_of_ascii c in
  ((9 <=? n) && (n <=? 13) || (28 <=? n) && (n <=? 32))%N.

Fixpoint lstrip (s : string) : string :=
  match s with
  | String c r => if is_space c then lstrip r else s
  | EmptyString => EmptyString
  end.

Fixpoint rstrip (s : string) : string :=
  match s with
  | String c r =>
      match rstrip r with
      | EmptyString => if is_space c then EmptyString else String c EmptyString
      | r' => String c r'
      end
  | EmptyString => EmptyString
  end.

(** [s.strip()], as to the white space of ASCII *)
Definition strip (s : string) : string := rstrip (lstrip s).

Definition is_lower (c : ascii) : bool :=
  let n := N_of_ascii c in ((97 <=? n) && (n <=? 122))%N.

Definition is_upper (c : ascii) : bool :=
  let n := N_of_ascii c in ((65 <=? n) && (n <=? 90))%N.

Definition upper_char (c : ascii) : ascii :=
  if is_lower c then ascii_of_N (N_of_ascii c - 32) else c.

Definition lower_char (c : ascii) : ascii :=
  if is_upper c then ascii_of_N (N_of_ascii c + 32) else c.

Fixpoint map_chars (f : ascii -> ascii) (s : string) : string :=
  match s with
  | String c r => String (f c) (map_chars f r)
  | EmptyString => EmptyString
  end.

(** [s.upper()] and [s.lower()], as to the letters of ASCII *)
Definition upper : string -> string := map_chars upper_char.
Definition lower : string -> string := map_chars lower_char.

(** [s.startswith(p)] *)
Definition startswith (s p : string) : bool := String.prefix p s.

(** [needle in hay] *)
Fixpoint contains (needle hay : string) : bool :=
  String.prefix needle hay ||
  match hay with
  | String _ r => contains needle r
  | EmptyString => false
  end.

(** [sep.join(l)] *)
Definition join (sep : string) (l : list string) : string :=
  String.concat sep l.

(** [bool(s)] *)
Definition nonempty (s : string) : bool :=
  match s with EmptyString => false | String _ _ => true end.

(** [str(n)] for an integer *)
Definition of_Z (n : Z) : string := NilZero.string_of_int (Z.to_int n).

(** *** Text beyond ASCII

    A [str] is its UTF-8 encoding.  [of_bytes] writes a character by the
    bytes of its encoding. *)
Definition of_bytes (l : list N) : string :=
  fold_right (fun n s => String (ascii_of_N n) s) EmptyString l.

(** The 29 characters [str.isspace] holds of, which are the ones
    [str.strip] removes: the ten of ASCII, then U+0085, U+00A0, U+1680,
    U+2000 to U+200A, U+2028, U+2029, U+202F, U+205F and U+3000. *)
Definition whitespace : list string :=
  map of_bytes
    [[9]; [10]; [11]; [12]; [13]; [28]; [29]; [30]; [31]; [32];
     [194; 133]; [194; 160]; [225; 154; 128];
     [226; 128; 128]; [226; 128; 129]; [226; 128; 130]; [226; 128; 131];
     [226; 128; 132]; [226; 128; 133]; [226; 128; 134]; [226; 128; 135];
     [226; 128; 136]; [226; 128; 137]; [226; 128; 138];
     [226; 128; 168]; [226; 128; 169]; [226; 128; 175];
     [226; 129; 159]; [227; 128; 128]]%N.

(** [s] without the prefix [p], when it has that prefix. *)
Fixpoint drop_prefix (p s : string) : option string :=
  match p with
  | EmptyString => Some s
  | String a p' =>
      match s with
      | String b s' => if Ascii.eqb a b then drop_prefix p' s' else None
      | EmptyString => None
      end
  end.

(** What follows the white-space character [s] begins with, if any. *)
Definition space_head (s : string) : option string :=
  fold_right
    (fun ws found =>
       match drop_prefix ws s with
       | Some r => Some r
       | None => found
       end)
    None whitespace.

(** At most [n] leading white-space characters removed. *)
Fixpoint lstrip_steps (n : nat) (s : string) : string :=
  match n with
  | O => s
  | S n' =>
      match space_head s with
      | Some r => lstrip_steps n' r
      | None => s
      end
  end.

(** [s.lstrip()]: a text has no more characters than bytes. *)
Definition lstrip_u (s : string) : string := lstrip_steps (String.length s) s.

(** [s] is white space from end to end. *)
Definition blank (s : string) : bool :=
  match lstrip_u s with
  | EmptyString => true
  | String _ _ => false
  end.

(** [s.rstrip()]: [s] up to the first place from which only white space
    follows. *)
Fixpoint rstrip_u (s : string) : string :=
  match s with
  | EmptyString => EmptyString
  | String c r => if blank s then EmptyString else String c (rstrip_u r)
  end.

(** [s.strip()] *)
Definition strip_u (s : string) : string := rstrip_u (lstrip_u s).

(** The characters outside ASCII whose upper case is ASCII text, with that
    upper case: U+00DF, U+0131, U+017F and U+FB00 to U+FB06. *)
Definition ascii_uppers : list (string * string) :=
  [(of_bytes [195; 159], "SS"); (of_bytes [196; 177], "I");
   (of_bytes [197; 191], "S"); (of_bytes [239; 172; 128], "FF");
   (of_bytes [239; 172; 129], "FI"); (of_bytes [239; 172; 130], "FL");
   (of_bytes [239; 172; 131], "FFI"); (of_bytes [239; 172; 132], "FFL");
   (of_bytes [239; 172; 133], "ST"); (of_bytes [239; 172; 134], "ST")]%N.

(** The upper case of the first character of [s], when it is ASCII text,
    with what follows that character. *)
Definition upper_head (s : string) : option (string * string) :=
  match s with
  | EmptyString => None
  | String c r =>
      if (N_of_ascii c <? 128)%N then Some (String (upper_char c) EmptyString, r)
      else
        fold_right
          (fun ku found =>
             match drop_prefix (fst ku) s with
             | Some r' => Some (snd ku, r')
             | None => found
             end)
          None ascii_uppers
  end.

Fixpoint upper_steps (n : nat) (s : string) : option string :=
  match s with
  | EmptyString => Some EmptyString
  | String _ _ =>
      match n with
      | O => None
      | S n' =>
          match upper_head s with
          | Some (u, r) =>
              match upper_steps n' r with
              | Some v => Some (u ++ v)%string
              | None => None
              end
          | None => None
          end
      end
  end.

(** [s.upper()] when it is ASCII text; [None] when the upper case of some
    character of [s] is not ASCII. *)
Definition upper_ascii (s : string) : option string :=
  upper_steps (String.length s) s.

End PyStr.

(* ------------------------------------------------------------------ *)
(** ** Values, dictionaries, exceptions *)

(** The values that travel between caller, program and driver.  The program
    never computes with a float, a [bytes] object or a nested container: it
    can only format one into a string or ask for its truth value, so such an
    object is represented by exactly these two observations. *)
Inductive pyval : Type :=
| PNone
| PBool (b : bool)
| PInt (n : Z)
| PStr (s : string)
| POther (repr : string) (truth : bool).

(** [str(v)], as an f-string formats [v]. *)
Definition py_str (v : pyval) : string :=
  match v with
  | PNone => "None"
  | PBool true => "True"
  | PBool false => "False"
  | PInt n => PyStr.of_Z n
  | PStr s => s
  | POther r _ => r
  end.

(** [bool(v)] *)
Definition truthy (v : pyval) : bool :=
  match v with
  | PNone => false
  | PBool b => b
  | PInt n => negb (n =? 0)%Z
  | PStr s => PyStr.nonempty s
  | POther _ t => t
  end.

(** A [dict] with string keys: an association list in insertion order.
    A dict received from the caller has pairwise distinct keys. *)
Definition dict := list (string * pyval).

Definition keys (d : dict) : list string := map fst d.
Definition values (d : dict) : list pyval := map snd d.

(** [d[k]] as [d.get(k)] *)
Fixpoint dict_get (k : string) (d : dict) : option pyval :=
  match d with
  | [] => None
  | (k', v) :: r => if String.eqb k k' then Some v else dict_get k r
  end.

(** [d[k] = v]: a key already present keeps its position and takes the new
    value; a new key goes last. *)
Fixpoint dict_set (k : string) (v : pyval) (d : dict) : dict :=
  match d with
  | [] => [(k, v)]
  | (k', v') :: r =>
      if String.eqb k k' then (k', v) :: r else (k', v') :: dict_set k v r
  end.

(** [dict(pairs)] *)
Definition dict_of_pairs (ps : list (string * pyval)) : dict :=
  fold_left (fun d p => dict_set (fst p) (snd p) d) ps [].

(** [zip(a, b)] stops at the shorter argument, as [combine] does. *)
Definition zip {A B : Type} (a : list A) (b : list B) : list (A * B) :=
  combine a b.

(** The two handlers of the program tell [sqlite3.OperationalError] from
    every other [Exception]. *)
Inductive exn_class : Type := OperationalError | OtherException.

Record exn : Type := Exn { exn_cls : exn_class; exn_str : string }.

Definition TypeError_not_iterable : exn :=
  Exn OtherException "'NoneType' object is not iterable".

Definition IndexError_tuple : exn :=
  Exn OtherException "tuple index out of range".

Inductive result (A : Type) : Type :=
| Ok (a : A)
| Raise (e : exn).

Arguments Ok {A} a.
Arguments Raise {A} e.

(* ------------------------------------------------------------------ *)
(** ** The environment: the sqlite3 driver and the set iteration order *)

(** What the program reads from a cursor after [cursor.execute]. *)
Record cursor : Type := Cursor {
  description : option (list string);  (* [desc[0]] of each entry, or None *)
  rowcount : Z;
  lastrowid : pyval
}.

Definition allowed_types : list string :=
  ["TEXT"; "INTEGER"; "REAL"; "NUMERIC"; "BLOB"; "DATE"; "DATETIME"].

Record Env : Type := {
  world : Type;                       (* the file system and the stores in it *)
  conn : Type;                        (* a connection handle *)
  connect : string -> world -> result conn * world;
  execute : conn -> string -> list pyval -> world -> result cursor * world;
  fetchall : conn -> world -> result (list (list pyval)) * world;
  commit : conn -> world -> result unit * world;
  close : conn -> world -> world;
  (* the order in which the set literal [allowed_types] is iterated *)
  allowed_iter : list string;
  allowed_iter_perm : Permutation allowed_iter allowed_types
}.

(** What happens during a call of a tool: the calls made to the driver, in
    the order the program issues them, and the exceptions raised, each at
    the point where it is raised. *)
Inductive event : Type :=
| EConnect (db_path : string)
| EExecute (sql : string) (params : list pyval)
| EFetchall
| ECommit
| EClose
| ERaise (e : exn).

(* ------------------------------------------------------------------ *)
(** ** The monad of the program: driver state, local [conn], exceptions *)

Section Program.

Variable E : Env.

(** [st_conn] is the local variable [conn]: bound once [sqlite3.connect]
    has returned, which is what ['conn' in locals()] tests. *)
Record state : Type := State {
  st_world : world E;
  st_conn : option (conn E);
  st_log : list event
}.

Definition M (A : Type) : Type := state -> result A * state.

Definition ret {A : Type} (a : A) : M A := fun s => (Ok a, s).

Definition raise {A : Type} (e : exn) : M A :=
  fun s => (Raise e, State (st_world s) (st_conn s) (st_log s ++ [ERaise e])).

Definition bind {A B : Type} (m : M A) (k : A -> M B) : M B :=
  fun s =>
    match m s with
    | (Ok a, s') => k a s'
    | (Raise e, s') => (Raise e, s')
    end.

Notation "x <- m ;; k" := (bind m (fun x => k))
  (at level 61, m at next level, right associativity).
Notation "m ;;; k" := (bind m (fun _ => k))
  (at level 61, right associativity).

(** [try: body  except Exception as e: handler e] *)
Definition try_except {A : Type} (body : M A) (handler : exn -> M A) : M A :=
  fun s =>
    match body s with
    | (Ok a, s') => (Ok a, s')
    | (Raise e, s') => handler e s'
    end.

(** [try: body  finally: final].  The value or exception of [body] is the
    outcome unless [final] itself raises. *)
Definition try_finally {A : Type} (body : M A) (final : M unit) : M A :=
  fun s =>
    match body s with
    | (r, s') =>
        match final s' with
        | (Ok _, s'') => (r, s'')
        | (Raise e, s'') => (Raise e, s'')
        end
    end.

(** A call to the driver: the call is logged, then the exception if the
    driver raised one. *)
Definition driver_call {A : Type} (ev : event)
  (f : world E -> result A * world E) : M A :=
  fun s =>
    match f (st_world s) with
    | (Ok a, w) => (Ok a, State w (st_conn s) (st_log s ++ [ev]))
    | (Raise e, w) =>
        (Raise e, State w (st_conn s) (st_log s ++ [ev; ERaise e]))
    end.

(** [conn = sqlite3.connect(db_path)]: [conn] is bound when the call
    returns. *)
Definition sqlite3_connect (db_path : string) : M (conn E) :=
  fun s =>
    match driver_call (EConnect db_path) (connect E db_path) s with
    | (Ok c, s') => (Ok c, State (st_world s') (Some c) (st_log s'))
    | (Raise e, s') => (Raise e, s')
    end.

(** [cursor.execute(sql, params)] *)
Definition cursor_execute (c : conn E) (sql : string) (params : list pyval)
  : M cursor :=
  driver_call (EExecute sql params) (execute E c sql params).

(** [cursor.fetchall()] *)
Definition cursor_fetchall (c : conn E) : M (list (list pyval)) :=
  driver_call EFetchall (fetchall E c).

(** [conn.commit()] *)
Definition conn_commit (c : conn E) : M unit :=
  driver_call ECommit (commit E c).

(** [if 'conn' in locals(): conn.close()] *)
Definition finally_close : M unit :=
  fun s =>
    match st_conn s with
    | Some c =>
        (Ok tt, State (close E c (st_world s)) (st_conn s) (st_log s ++ [EClose]))
    | None => (Ok tt, s)
    end.

(** [row[i]] on a tuple *)
Definition item (row : list pyval) (i : nat) : M pyval :=
  match nth_error row i with
  | Some v => ret v
  | None => raise IndexError_tuple
  end.

(** [for x in l: ...] collecting one result per element *)
Fixpoint for_each {A B : Type} (f : A -> M B) (l : list A) : M (list B) :=
  match l with
  | [] => ret []
  | x :: r => y <- f x ;; ys <- for_each f r ;; ret (y :: ys)
  end.

(** [[desc[0] for desc in cursor.description]] *)
Definition column_names_of (cur : cursor) : M (list string) :=
  match description cur with
  | Some names => ret names
  | None => raise TypeError_not_iterable
  end.

(** [[{"error": msg}]] *)
Definition error_result (msg : string) : list dict := [[("error", PStr msg)]].

(** *** execute_sql_query *)

Definition is_select (query : string) : bool :=
  PyStr.startswith (PyStr.upper (PyStr.strip query)) "SELECT".

Definition execute_sql_query (query db_path : string) : M (list dict) :=
  try_finally
    (try_except
       (c <- sqlite3_connect db_path ;;
        cur <- cursor_execute c query [] ;;
        if is_select query then
          column_names <- column_names_of cur ;;
          rows <- cursor_fetchall c ;;
          ret (map (fun row => dict_of_pairs (zip column_names row)) rows)
        else
          conn_commit c ;;;
          ret [[("rows_affected", PInt (rowcount cur))]])
       (fun e => ret (error_result (exn_str e))))
    finally_close.

(** *** get_database_schema *)

Record column_def : Type := ColumnDef {
  col_name : pyval;
  col_type : pyval;
  col_notnull : bool;
  col_default : pyval;
  col_primary_key : bool
}.

(** The two shapes of dict the function returns:
    [{"table": t, "columns": [...]}] and [{"error": msg}]. *)
Inductive schema_item : Type :=
| TableInfo (table : pyval) (columns : list column_def)
| SchemaError (msg : string).

Definition user_tables_sql : string :=
  "SELECT name FROM sqlite_master WHERE type='table' AND name NOT LIKE 'sqlite_%';".

Definition table_info_sql (table_name : pyval) : string :=
  "PRAGMA table_info(" ++ py_str table_name ++ ");".

Definition column_of_row (col : list pyval) : M column_def :=
  n <- item col 1 ;;
  t <- item col 2 ;;
  nn <- item col 3 ;;
  d <- item col 4 ;;
  pk <- item col 5 ;;
  ret (ColumnDef n t (truthy nn) d (truthy pk)).

Definition get_database_schema (db_path : string) : M (list schema_item) :=
  try_finally
    (try_except
       (c <- sqlite3_connect db_path ;;
        cursor_execute c user_tables_sql [] ;;;
        tables <- cursor_fetchall c ;;
        for_each
          (fun table =>
             table_name <- item table 0 ;;
             cursor_execute c (table_info_sql table_name) [] ;;;
             columns <- cursor_fetchall c ;;
             cols <- for_each column_of_row columns ;;
             ret (TableInfo table_name cols))
          tables)
       (fun e => ret [SchemaError (exn_str e)]))
    finally_close.

(** *** list_tables *)

Definition list_tables (db_path : string) : M (list pyval) :=
  try_finally
    (try_except
       (c <- sqlite3_connect db_path ;;
        cursor_execute c user_tables_sql [] ;;;
        rows <- cursor_fetchall c ;;
        for_each (fun row => item row 0) rows)
       (fun e => ret [PStr ("error: " ++ exn_str e)]))
    finally_close.

(** *** insert_row *)

Definition insert_row_sql (table : string) (data : dict) : string :=
  let columns := keys data in
  let placeholders := PyStr.join ", " (map (fun _ => "?") columns) in
  "INSERT INTO " ++ table ++ " (" ++ PyStr.join ", " columns
    ++ ") VALUES (" ++ placeholders ++ ")".

Definition insert_row (table : string) (data : dict) (db_path : string)
  : M (list dict) :=
  match data with
  | [] => ret (error_result "No data provided")
  | _ :: _ =>
      let sql := insert_row_sql table data in
      try_finally
        (try_except
           (c <- sqlite3_connect db_path ;;
            cur <- cursor_execute c sql (values data) ;;
            conn_commit c ;;;
            ret [[("inserted_id", lastrowid cur)]])
           (fun e => ret (error_result (exn_str e))))
        finally_close
  end.

(** *** update_rows *)

(** [[f"{col} = ?" for col in d.keys()]] *)
Definition eq_clauses (d : dict) : list string :=
  map (fun col => col ++ " = ?") (keys d).

Definition update_rows_sql (table : string) (data where_ : dict) : string :=
  let set_clause := PyStr.join ", " (eq_clauses data) in
  let where_clause := PyStr.join " AND " (eq_clauses where_) in
  "UPDATE " ++ table ++ " SET " ++ set_clause ++ " WHERE " ++ where_clause.

Definition is_empty (d : dict) : bool :=
  match d with [] => true | _ :: _ => false end.

Definition update_rows (table : string) (data where_ : dict)
  (db_path : string) : M (list dict) :=
  if is_empty data || is_empty where_ then
    ret (error_result "Both 'data' and 'where' must be provided")
  else
    let sql := update_rows_sql table data where_ in
    let params := (values data ++ values where_)%list in
    try_finally
      (try_except
         (c <- sqlite3_connect db_path ;;
          cur <- cursor_execute c sql params ;;
          conn_commit c ;;;
          ret [[("rows_affected", PInt (rowcount cur))]])
         (fun e => ret (error_result (exn_str e))))
      finally_close.

(** *** delete_rows *)

Definition delete_rows_sql (table : string) (where_ : dict) : string :=
  let where_clause := PyStr.join " AND " (eq_clauses where_) in
  "DELETE FROM " ++ table ++ " WHERE " ++ where_clause.

Definition delete_rows (table : string) (where_ : dict) (db_path : string)
  : M (list dict) :=
  if is_empty where_ then
    ret (error_result "'where' condition required to avoid accidental deletion")
  else
    let sql := delete_rows_sql table where_ in
    let params := values where_ in
    try_finally
      (try_except
         (c <- sqlite3_connect db_path ;;
          cur <- cursor_execute c sql params ;;
          conn_commit c ;;;
          ret [[("rows_affected", PInt (rowcount cur))]])
         (fun e => ret (error_result (exn_str e))))
      finally_close.

(** *** add_column *)

Definition add_column_sql (table column_name data_type : string) : string :=
  "ALTER TABLE " ++ table ++ " ADD COLUMN " ++ column_name ++ " " ++ data_type.

(** [x in allowed_types] *)
Definition in_allowed_types (x : string) : bool :=
  existsb (String.eqb x) allowed_types.

(** [x.upper() in allowed_types]: the seven types are ASCII words, so an
    upper case that is not ASCII is none of them. *)
Definition upper_in_allowed (x : string) : bool :=
  match PyStr.upper_ascii x with
  | Some u => in_allowed_types u
  | None => false
  end.

Definition bad_type_message : string :=
  "Data type must be one of: " ++ PyStr.join ", " (allowed_iter E).

Definition added_message (table column_name data_type : string) : string :=
  "Column '" ++ column_name ++ "' (" ++ data_type ++ ") added to table '"
    ++ table ++ "'".

Definition duplicate_message (table column_name : string) : string :=
  "Column '" ++ column_name ++ "' already exists in table '" ++ table ++ "'".

Definition no_table_message (table : string) : string :=
  "Table '" ++ table ++ "' does not exist".

(** What the two [except] clauses of [add_column] return for [e], in the
    order of the clauses. *)
Definition add_column_error (table column_name : string) (e : exn)
  : list dict :=
  match exn_cls e with
  | OperationalError =>
      if PyStr.contains "duplicate column name" (PyStr.lower (exn_str e)) then
        error_result (duplicate_message table column_name)
      else if PyStr.contains "no such table" (PyStr.lower (exn_str e)) then
        error_result (no_table_message table)
      else
        error_result ("SQLite error: " ++ exn_str e)
  | OtherException =>
      error_result ("Unexpected error: " ++ exn_str e)
  end.

Definition add_column (table column_name data_type db_path : string)
  : M (list dict) :=
  if negb (PyStr.nonempty (PyStr.strip_u table)) then
    ret (error_result "Table name cannot be empty")
  else if negb (PyStr.nonempty (PyStr.strip_u column_name)) then
    ret (error_result "Column name cannot be empty")
  else if negb (upper_in_allowed data_type) then
    ret (error_result bad_type_message)
  else
    try_finally
      (try_except
         (c <- sqlite3_connect db_path ;;
          let sql := add_column_sql table column_name data_type in
          cursor_execute c sql [] ;;;
          conn_commit c ;;;
          ret [[("success", PBool true);
                ("message", PStr (added_message table column_name data_type))]])
         (fun e => ret (add_column_error table column_name e)))
      finally_close.

(** *** Running a tool

    A tool starts with no local [conn] and an empty log.  [Ok r] is the
    value returned to the caller; [Raise e] is an exception that leaves
    the function. *)
Record outcome (A : Type) : Type := Outcome {
  returned : result A;
  final_world : world E;
  calls : list event
}.

Definition run {A : Type} (m : M A) (w : world E) : outcome A :=
  match m (State w None []) with
  | (r, s) => Outcome A r (st_world s) (st_log s)
  end.

End Program.

Arguments Outcome {E A} returned final_world calls.
Arguments run {E A} m w.
Arguments returned {E A} o.
Arguments final_world {E A} o.
Arguments calls {E A} o.
Arguments State {E} st_world st_conn st_log.
Arguments st_world {E} s.
Arguments st_conn {E} s.
Arguments st_log {E} s.
Arguments ret {E A} a s.
Arguments raise {E A} e s.
Arguments bind {E A B} m k s.
Arguments try_except {E A} body handler s.
Arguments try_finally {E A} body final s.
Arguments driver_call {E A} ev f s.
Arguments sqlite3_connect {E} db_path s.
Arguments cursor_execute {E} c sql params s.
Arguments cursor_fetchall {E} c s.
Arguments conn_commit {E} c s.
Arguments finally_close {E} s.
Arguments item {E} row i.
Arguments for_each {E A B} f l.
Arguments column_names_of {E} cur.
Arguments column_of_row {E} col.

(* ------------------------------------------------------------------ *)
(** ** A driver that replays a recorded session

    Each driver call consumes the next recorded reply; [commits] counts the
    commits that went through.  It serves as a concrete environment on
    which the statements below are instantiated. *)

Module Replay.

Inductive reply : Type :=
| Connected
| ConnectFails (e : exn)
| Executed (cur : cursor)
| ExecuteFails (e : exn)
| Fetched (rows : list (list pyval))
| FetchFails (e : exn)
| Committed
| CommitFails (e : exn).

Record tape : Type := Tape { replies : list reply; commits : nat }.

Definition off_script : exn := Exn OtherException "no reply recorded".

Definition do_connect (_ : string) (t : tape) : result unit * tape :=
  match replies t with
  | Connected :: r => (Ok tt, Tape r (commits t))
  | ConnectFails e :: r => (Raise e, Tape r (commits t))
  | _ => (Raise off_script, t)
  end.

Definition do_execute (_ : unit) (_ : string) (_ : list pyval) (t : tape)
  : result cursor * tape :=
  match replies t with
  | Executed cur :: r => (Ok cur, Tape r (commits t))
  | ExecuteFails e :: r => (Raise e, Tape r (commits t))
  | _ => (Raise off_script, t)
  end.

Definition do_fetchall (_ : unit) (t : tape)
  : result (list (list pyval)) * tape :=
  match replies t with
  | Fetched rows :: r => (Ok rows, Tape r (commits t))
  | FetchFails e :: r => (Raise e, Tape r (commits t))
  | _ => (Raise off_script, t)
  end.

Definition do_commit (_ : unit) (t : tape) : result unit * tape :=
  match replies t with
  | Committed :: r => (Ok tt, Tape r (S (commits t)))
  | CommitFails e :: r => (Raise e, Tape r (commits t))
  | _ => (Raise off_script, t)
  end.

Definition do_close (_ : unit) (t : tape) : tape := t.

Definition env : Env :=
  {| world := tape;
     conn := unit;
     connect := do_connect;
     execute := do_execute;
     fetchall := do_fetchall;
     commit := do_commit;
     close := do_close;
     allowed_iter := allowed_types;
     allowed_iter_perm := Permutation_refl allowed_types |}.

Definition session (l : list reply) : world env := Tape l 0.

End Replay.

(* ------------------------------------------------------------------ *)
(** ** A driver over stores kept in memory

    A small store engine on which the assumptions made of the driver are
    met: files that hold tables with their columns, a working copy while a
    connection is open, the catalog query, and [ALTER TABLE ... ADD COLUMN
    ...] on names without spaces.  Connecting to a path that names no file
    creates an empty store there, unless the path is listed as one where
    nothing can be created.  A statement that fails changes nothing; a
    column that is added is in the file when the statement returns, as the
    driver opens no transaction for a schema change. *)

Module MemDB.

Definition tables : Type := list (string * list string).

Record disk : Type := Disk {
  files : list (string * tables);      (* the stores, by path, as committed *)
  no_create : list string;             (* paths where no file can be created *)
  session : option (string * tables);  (* the open store and its working copy *)
  fetched : list (list pyval)          (* the rows of the last statement *)
}.

Fixpoint lookup {A : Type} (k : string) (l : list (string * A)) : option A :=
  match l with
  | [] => None
  | (k', a) :: r => if String.eqb k k' then Some a else lookup k r
  end.

Fixpoint update {A : Type} (k : string) (a : A) (l : list (string * A))
  : list (string * A) :=
  match l with
  | [] => [(k, a)]
  | (k', a') :: r =>
      if String.eqb k k' then (k', a) :: r else (k', a') :: update k a r
  end.

Definition do_connect (p : string) (w : disk) : result unit * disk :=
  match lookup p (files w) with
  | Some db => (Ok tt, Disk (files w) (no_create w) (Some (p, db)) [])
  | None =>
      if existsb (String.eqb p) (no_create w) then
        (Raise (Exn OperationalError "unable to open database file"), w)
      else
        (Ok tt, Disk ((p, []) :: files w) (no_create w) (Some (p, [])) [])
  end.

(** The text up to the first space, and the text after it. *)
Fixpoint until_space (s : string) : string * string :=
  match s with
  | EmptyString => (EmptyString, EmptyString)
  | String c r =>
      if Ascii.eqb c " " then (EmptyString, r)
      else (String c (fst (until_space r)), snd (until_space r))
  end.

(** Table and column of [ALTER TABLE table ADD COLUMN column type]. *)
Definition parse_add_column (sql : string) : option (string * string) :=
  match PyStr.drop_prefix "ALTER TABLE " sql with
  | Some r =>
      match PyStr.drop_prefix "ADD COLUMN " (snd (until_space r)) with
      | Some r' => Some (fst (until_space r), fst (until_space r'))
      | None => None
      end
  | None => None
  end.

Definition do_execute (_ : unit) (sql : string) (_ : list pyval) (w : disk)
  : result cursor * disk :=
  match session w with
  | None =>
      (Raise (Exn OtherException "Cannot operate on a closed database."), w)
  | Some (p, db) =>
      if String.eqb sql user_tables_sql then
        (Ok (Cursor (Some ["name"]) (-1) PNone),
         Disk (files w) (no_create w) (session w)
           (map (fun t => [PStr (fst t)]) db))
      else
        match parse_add_column sql with
        | Some (t, c) =>
            match lookup t db with
            | None =>
                (Raise (Exn OperationalError ("no such table: " ++ t)), w)
            | Some cols =>
                if existsb (String.eqb c) cols then
                  (Raise (Exn OperationalError
                            ("duplicate column name: " ++ c)), w)
                else
                  (Ok (Cursor None (-1) PNone),
                   Disk (update p (update t (cols ++ [c])%list db) (files w))
                     (no_create w)
                     (Some (p, update t (cols ++ [c])%list db)) [])
            end
        | None => (Raise (Exn OperationalError "syntax error"), w)
        end
  end.

Definition do_fetchall (_ : unit) (w : disk)
  : result (list (list pyval)) * disk :=
  (Ok (fetched w), Disk (files w) (no_create w) (session w) []).

Definition do_commit (_ : unit) (w : disk) : result unit * disk :=
  match session w with
  | Some (p, db) =>
      (Ok tt, Disk (update p db (files w)) (no_create w) (session w) (fetched w))
  | None =>
      (Raise (Exn OtherException "Cannot operate on a closed database."), w)
  end.

Definition do_close (_ : unit) (w : disk) : disk :=
  Disk (files w) (no_create w) None [].

Definition env : Env :=
  {| world := disk;
     conn := unit;
     connect := do_connect;
     execute := do_execute;
     fetchall := do_fetchall;
     commit := do_commit;
     close := do_close;
     allowed_iter := allowed_types;
     allowed_iter_perm := Permutation_refl allowed_types |}.

(** The columns of a table of the store at a path, as committed. *)
Definition columns (w : world env) (path table : string)
  : option (list string) :=
  match lookup path (files w) with
  | Some db => lookup table db
  | None => None
  end.

(** The names of the tables of the store at a path, [None] where the path
    names no file. *)
Definition user_tables (w : world env) (p : string) : option (list string) :=
  option_map (map fst) (lookup p (files w)).

(** The open connection is one to the store at [p], and nothing is pending
    on it. *)
Definition serves (w : world env) (_ : conn env) (p : string) : Prop :=
  exists db, session w = Some (p, db) /\ lookup p (files w) = Some db.

Definition can_create (w : world env) (p : string) : bool :=
  negb (existsb (String.eqb p) (no_create w)).

(** A world with the given stores, every path free for new files, and no
    connection open. *)
Definition holding (fs : list (string * tables)) : world env :=
  Disk fs [] None [].

End MemDB.

(* ------------------------------------------------------------------ *)
(** ** Notions the statements are phrased with *)

(** Two characters are the same up to letter case: they are equal, or both
    are ASCII letters whose codes differ by 32. *)
Definition same_letter (a b : ascii) : bool :=
  let is_letter c := PyStr.is_lower c || PyStr.is_upper c in
  Ascii.eqb a b ||
  (is_letter a && is_letter b &&
   ((N_of_ascii a =? N_of_ascii b + 32) || (N_of_ascii b =? N_of_ascii a + 32))%N).

Fixpoint eq_nocase (s t : string) : bool :=
  match s, t with
  | EmptyString, EmptyString => true
  | String a s', String b t' => same_letter a b && eq_nocase s' t'
  | _, _ => false
  end.

(** [s] spells the ASCII word [t] up to letter case: each letter of [t] is
    written in upper case, in lower case or, for I, as the dotless i of
    U+0131 (the bytes 196 and 177), whose upper case is I.  No other
    letter of the seven whitelisted words has a form outside ASCII. *)
Fixpoint spells (s t : string) : bool :=
  match t with
  | EmptyString =>
      match s with
      | EmptyString => true
      | String _ _ => false
      end
  | String b t' =>
      match s with
      | EmptyString => false
      | String a s' =>
          same_letter a b && spells s' t'
          || (Ascii.eqb b "I" && Ascii.eqb a (ascii_of_N 196)
              && match s' with
                 | String a2 s'' =>
                     Ascii.eqb a2 (ascii_of_N 177) && spells s'' t'
                 | EmptyString => false
                 end)
      end
  end.

(** A byte of the ASCII range, which is a character of its own. *)
Definition is_ascii (c : ascii) : bool := (N_of_ascii c <? 128)%N.

(** [data_type] is, letter case apart, one of the seven whitelisted types. *)
Definition whitelisted (data_type : string) : Prop :=
  exists t, In t allowed_types /\ spells data_type t = true.

(** [s] is made of white-space characters only (the empty text included). *)
Inductive white : string -> Prop :=
| white_nil : white ""
| white_cons (ws s : string) :
    In ws PyStr.whitespace -> white s -> white (ws ++ s).

(** What is assumed of the driver where a statement tells what the store
    holds afterwards.  [columns w path table] are the columns of [table]
    in the store at [path] as committed in the world [w], [None] where
    there is no such table.  Connecting, a statement that fails and
    closing change none of them. *)
Record Transactional (E : Env)
  (columns : world E -> string -> string -> option (list string)) : Prop := {
  connect_keeps :
    forall p w r w',
      connect E p w = (r, w') ->
      forall path table, columns w' path table = columns w path table;
  failed_statement_keeps :
    forall c sql params w e w',
      execute E c sql params w = (Raise e, w') ->
      forall path table, columns w' path table = columns w path table;
  close_keeps :
    forall c w path table, columns (close E c w) path table = columns w path table
}.

(** What is assumed of the driver where a statement is about a path that
    names no file.  [user_tables w p] are the names of the user tables of
    the store in the file at [p], [None] when [p] names no file;
    [can_create w p] tells whether a file can be created at [p] (its
    directory is there and can be written to); [serves w c p] holds when
    [c] is a connection to the store at [p].  [sqlite3.connect] on a path
    that names no file creates a store without tables there and returns a
    connection to it; the catalog query through a connection yields one
    row for every user table of the store, holding its name. *)
Record CreatesMissing (E : Env)
  (user_tables : world E -> string -> option (list string))
  (can_create : world E -> string -> bool)
  (serves : world E -> conn E -> string -> Prop) : Prop := {
  connect_creates :
    forall p w,
      user_tables w p = None ->
      can_create w p = true ->
      exists c w1,
        connect E p w = (Ok c, w1)
        /\ user_tables w1 p = Some []
        /\ serves w1 c p;
  catalog_lists :
    forall c p w ts,
      serves w c p ->
      user_tables w p = Some ts ->
      exists cur w1 w2,
        execute E c user_tables_sql [] w = (Ok cur, w1)
        /\ fetchall E c w1 = (Ok (map (fun t => [PStr t]) ts), w2)
}.

Fixpoint all_chars (p : ascii -> bool) (s : string) : bool :=
  match s with
  | EmptyString => true
  | String c r => p c && all_chars p r
  end.

(** The text of [query], leading white space apart, begins with the word
    SELECT in some letter case. *)
Definition begins_with_select (query : string) : Prop :=
  exists ws kw rest,
    query = ws ++ kw ++ rest
    /\ all_chars PyStr.is_space ws = true
    /\ eq_nocase kw "SELECT" = true.

(** A syntactically valid identifier: a non-empty word of ASCII letters,
    digits and underscores that does not start with a digit. *)
Definition ident_start (c : ascii) : bool :=
  PyStr.is_lower c || PyStr.is_upper c || Ascii.eqb c "_".

Definition ident_part (c : ascii) : bool :=
  let n := N_of_ascii c in
  ident_start c || ((48 <=? n) && (n <=? 57))%N.

Definition valid_identifier (s : string) : bool :=
  match s with
  | EmptyString => false
  | String c r => ident_start c && all_chars ident_part r
  end.

(** Two dicts have the same set of keys. *)
Definition same_key_set (d1 d2 : dict) : Prop :=
  forall k, In k (keys d1) <-> In k (keys d2).

(** The names of [l] in the order of their first occurrence. *)
Fixpoint first_seen (l : list string) : list string :=
  match l with
  | [] => []
  | x :: r => x :: filter (fun y => negb (String.eqb y x)) (first_seen r)
  end.

(** A log without exceptions. *)
Definition no_raise (l : list event) : Prop := forall e, ~ In (ERaise e) l.

(** A computation is tidy when it only appends to the log, and the log
    tells how it ended: an exception is logged exactly when the computation
    ends by raising it, as the last entry. *)
Definition tidy {E : Env} {A : Type} (m : M E A) : Prop :=
  forall s, exists l, no_raise l /\
    match m s with
    | (Ok _, s') => st_log s' = (st_log s ++ l)%list
    | (Raise e, s') => st_log s' = (st_log s ++ l ++ [ERaise e])%list
    end.

(** Quantification over the 256 characters, by computation. *)
Definition forall_bool (f : bool -> bool) : bool := f true && f false.

Definition forall_ascii (f : ascii -> bool) : bool :=
  forall_bool (fun b0 => forall_bool (fun b1 => forall_bool (fun b2 =>
  forall_bool (fun b3 => forall_bool (fun b4 => forall_bool (fun b5 =>
  forall_bool (fun b6 => forall_bool (fun b7 =>
    f (Ascii b0 b1 b2 b3 b4 b5 b6 b7))))))))).

(** *** Notions for the behaviour of whole calls *)

(** A computation that runs inside an open connection: it appends events
    that satisfy [P] and leaves the local [conn] as it is. *)
Definition emits {E : Env} {A : Type} (P : event -> Prop) (m : M E A) : Prop :=
  forall s, exists l,
    st_log (snd (m s)) = (st_log s ++ l)%list
    /\ st_conn (snd (m s)) = st_conn s
    /\ Forall P l.

(** An event that is neither the opening nor the closing of a connection. *)
Definition inner_call (ev : event) : Prop :=
  match ev with
  | EConnect _ | EClose => False
  | _ => True
  end.

(** The logs of a call that handles its connection properly: no driver
    call at all; or a connect that raised and nothing after it; or one
    connect, the calls made through the connection, and one close, last. *)
Definition session_log (db_path : string) (l : list event) : Prop :=
  l = []
  \/ (exists e, l = [EConnect db_path; ERaise e])
  \/ (exists mid,
        l = (EConnect db_path :: mid ++ [EClose])%list
        /\ Forall inner_call mid).

(** What a tool that only reads the schema may do through its connection:
    submit the catalog query or a [PRAGMA table_info], without parameters,
    and fetch. *)
Definition inspector_call (ev : event) : Prop :=
  match ev with
  | EExecute sql params =>
      params = []
      /\ (sql = user_tables_sql \/ exists v, sql = table_info_sql v)
  | EFetchall | ERaise _ => True
  | EConnect _ | ECommit | EClose => False
  end.

(** The four ways a call that connects, submits one statement and commits
    can go, with the value returned, the world left and the log. *)
Definition write_behaviour {E : Env} {A : Type} (db_path sql : string)
  (params : list pyval) (on_success : cursor -> A) (on_error : exn -> A)
  (w : world E) (o : outcome E A) : Prop :=
  (exists e w1,
      connect E db_path w = (Raise e, w1)
      /\ o = Outcome (Ok (on_error e)) w1 [EConnect db_path; ERaise e])
  \/ (exists c w1 e w2,
        connect E db_path w = (Ok c, w1)
        /\ execute E c sql params w1 = (Raise e, w2)
        /\ o = Outcome (Ok (on_error e)) (close E c w2)
                 [EConnect db_path; EExecute sql params; ERaise e; EClose])
  \/ (exists c w1 cur w2 e w3,
        connect E db_path w = (Ok c, w1)
        /\ execute E c sql params w1 = (Ok cur, w2)
        /\ commit E c w2 = (Raise e, w3)
        /\ o = Outcome (Ok (on_error e)) (close E c w3)
                 [EConnect db_path; EExecute sql params; ECommit; ERaise e;
                  EClose])
  \/ (exists c w1 cur w2 w3,
        connect E db_path w = (Ok c, w1)
        /\ execute E c sql params w1 = (Ok cur, w2)
        /\ commit E c w2 = (Ok tt, w3)
        /\ o = Outcome (Ok (on_success cur)) (close E c w3)
                 [EConnect db_path; EExecute sql params; ECommit; EClose]).

(** The five ways a call of [execute_sql_query] on a read can go. *)
Definition read_behaviour {E : Env} (db_path query : string) (w : world E)
  (o : outcome E (list dict)) : Prop :=
  (exists e w1,
      connect E db_path w = (Raise e, w1)
      /\ o = Outcome (Ok (error_result (exn_str e))) w1
               [EConnect db_path; ERaise e])
  \/ (exists c w1 e w2,
        connect E db_path w = (Ok c, w1)
        /\ execute E c query [] w1 = (Raise e, w2)
        /\ o = Outcome (Ok (error_result (exn_str e))) (close E c w2)
                 [EConnect db_path; EExecute query []; ERaise e; EClose])
  \/ (exists c w1 cur w2,
        connect E db_path w = (Ok c, w1)
        /\ execute E c query [] w1 = (Ok cur, w2)
        /\ description cur = None
        /\ o = Outcome (Ok (error_result (exn_str TypeError_not_iterable)))
                 (close E c w2)
                 [EConnect db_path; EExecute query [];
                  ERaise TypeError_not_iterable; EClose])
  \/ (exists c w1 cur w2 names e w3,
        connect E db_path w = (Ok c, w1)
        /\ execute E c query [] w1 = (Ok cur, w2)
        /\ description cur = Some names
        /\ fetchall E c w2 = (Raise e, w3)
        /\ o = Outcome (Ok (error_result (exn_str e))) (close E c w3)
                 [EConnect db_path; EExecute query []; EFetchall; ERaise e;
                  EClose])
  \/ (exists c w1 cur w2 names rows w3,
        connect E db_path w = (Ok c, w1)
        /\ execute E c query [] w1 = (Ok cur, w2)
        /\ description cur = Some names
        /\ fetchall E c w2 = (Ok rows, w3)
        /\ o = Outcome
                 (Ok (map (fun row => dict_of_pairs (zip names row)) rows))
                 (close E c w3)
                 [EConnect db_path; EExecute query []; EFetchall; EClose]).

(** [msg] contains [needle] up to letter case. *)
Definition mentions (needle msg : string) : Prop :=
  exists pre mid post,
    msg = pre ++ mid ++ post /\ eq_nocase mid needle = true.

(** *** Placeholders of a statement

    Where a reader of SQL text stands after a character: in the statement
    itself, right after a question mark, inside text quoted by [q] (a
    string or a quoted name), inside square brackets, after one dash or one
    slash, inside a comment that ends with the line, inside a comment that
    ends with star and slash, and after a star inside such a comment. *)
Inductive lexing : Type :=
| Plain
| Marked
| Quoted (q : ascii)
| Bracketed
| Dash
| Slash
| LineComment
| BlockComment
| BlockStar.

(** A character read in the statement itself.  A colon, an at sign or a
    dollar sign would start a parameter with a name: such texts are not
    read further. *)
Definition read_plain (c : ascii) : option lexing :=
  match N_of_ascii c with
  | 63%N => Some Marked                         (* ? *)
  | 39%N | 34%N | 96%N => Some (Quoted c)       (* the three quotes *)
  | 91%N => Some Bracketed                      (* [ *)
  | 45%N => Some Dash                           (* - *)
  | 47%N => Some Slash                          (* / *)
  | 58%N | 64%N | 36%N => None                  (* : @ $ *)
  | _ => Some Plain
  end.

Definition is_digit (c : ascii) : bool :=
  ((48 <=? N_of_ascii c) && (N_of_ascii c <=? 57))%N.

(** A character read in any place.  A digit right after a question mark
    would make a parameter with a number: such texts are not read further
    either. *)
Definition read (m : lexing) (c : ascii) : option lexing :=
  match m with
  | Plain => read_plain c
  | Marked => if is_digit c then None else read_plain c
  | Quoted q => Some (if Ascii.eqb c q then Plain else Quoted q)
  | Bracketed => Some (if Ascii.eqb c "]" then Plain else Bracketed)
  | Dash => if Ascii.eqb c "-" then Some LineComment else read_plain c
  | Slash => if Ascii.eqb c "*" then Some BlockComment else read_plain c
  | LineComment =>
      Some (if (N_of_ascii c =? 10)%N then Plain else LineComment)
  | BlockComment => Some (if Ascii.eqb c "*" then BlockStar else BlockComment)
  | BlockStar =>
      Some (if Ascii.eqb c "/" then Plain
            else if Ascii.eqb c "*" then BlockStar else BlockComment)
  end.

Definition is_marked (m : lexing) : bool :=
  match m with Marked => true | _ => false end.

(** Reading [s] from the place [m] with [n] placeholders seen so far: the
    place reached and the placeholders seen. *)
Fixpoint scan (m : lexing) (n : nat) (s : string) : option (lexing * nat) :=
  match s with
  | EmptyString => Some (m, n)
  | String c r =>
      match read m c with
      | Some m' => scan m' (if is_marked m' then S n else n) r
      | None => None
      end
  end.

(** The place reached after a list of joined pieces each of which ends
    with a question mark. *)
Definition after_marks {A : Type} (l : list A) : lexing :=
  match l with [] => Plain | _ :: _ => Marked end.

(** The number of placeholders of a statement all of whose parameters are
    plain question marks: the question marks outside quoted text and
    comments. *)
Definition sql_parameters (sql : string) : option nat :=
  option_map snd (scan Plain 0 sql).

(** The column definition [get_database_schema] builds from one row of
    [PRAGMA table_info], when the row has the six entries of the pragma. *)
Definition column_def_of (col : list pyval) : option column_def :=
  match col with
  | _ :: n :: t :: nn :: d :: pk :: _ =>
      Some (ColumnDef n t (truthy nn) d (truthy pk))
  | _ => None
  end.

Fixpoint column_defs_of (columns : list (list pyval))
  : option (list column_def) :=
  match columns with
  | [] => Some []
  | col :: rest =>
      match column_def_of col, column_defs_of rest with
      | Some cd, Some cds => Some (cd :: cds)
      | _, _ => None
      end
  end.

(** The driver answers, table after table, the pragma submitted for each
    row of the catalog query with rows of six entries: [describes c w
    tables infos w'] relates the world before the first pragma, the rows of
    the catalog query, the table descriptions read and the world after the
    last fetch. *)
Inductive describes {E : Env} (c : conn E)
  : world E -> list (list pyval) -> list schema_item -> world E -> Prop :=
| describes_nil (w : world E) : describes c w [] [] w
| describes_cons (w w1 w2 w3 : world E) (name : pyval) (more : list pyval)
    (rest : list (list pyval)) (cur : cursor) (columns : list (list pyval))
    (cols : list column_def) (infos : list schema_item) :
    execute E c (table_info_sql name) [] w = (Ok cur, w1) ->
    fetchall E c w1 = (Ok columns, w2) ->
    column_defs_of columns = Some cols ->
    describes c w2 rest infos w3 ->
    describes c w ((name :: more) :: rest) (TableInfo name cols :: infos) w3.

(* ------------------------------------------------------------------ *)
(** ** Strings *)

Lemma forall_bool_spec (f : bool -> bool) :
  forall_bool f = true -> forall b, f b = true.
Proof.
  unfold forall_bool. intros H b.
  apply andb_true_iff in H. destruct H as [Ht Hf]. now destruct b.
Qed.

Lemma forall_ascii_spec (f : ascii -> bool) :
  forall_ascii f = true -> forall c, f c = true.
Proof.
  intros H [b0 b1 b2 b3 b4 b5 b6 b7]. unfold forall_ascii in H.
  pose proof (forall_bool_spec _ H b0) as H0. cbv beta in H0.
  pose proof (forall_bool_spec _ H0 b1) as H1. cbv beta in H1.
  pose proof (forall_bool_spec _ H1 b2) as H2. cbv beta in H2.
  pose proof (forall_bool_spec _ H2 b3) as H3. cbv beta in H3.
  pose proof (forall_bool_spec _ H3 b4) as H4. cbv beta in H4.
  pose proof (forall_bool_spec _ H4 b5) as H5. cbv beta in H5.
  pose proof (forall_bool_spec _ H5 b6) as H6. cbv beta in H6.
  exact (forall_bool_spec _ H6 b7).
Qed.

Lemma upper_char_same_letter (a b : ascii) :
  Ascii.eqb (PyStr.upper_char a) (PyStr.upper_char b) = same_letter a b.
Proof.
  revert b. revert a.
  assert (H : forall_ascii (fun a => forall_ascii (fun b =>
            Bool.eqb (Ascii.eqb (PyStr.upper_char a) (PyStr.upper_char b))
                     (same_letter a b))) = true) by (vm_compute; reflexivity).
  intros a b.
  pose proof (forall_ascii_spec _ H a) as Ha. cbv beta in Ha.
  pose proof (forall_ascii_spec _ Ha b) as Hb. cbv beta in Hb.
  now apply Bool.eqb_prop in Hb.
Qed.

Lemma upper_cons (a : ascii) (s : string) :
  PyStr.upper (String a s) = String (PyStr.upper_char a) (PyStr.upper s).
Proof. reflexivity. Qed.

Lemma upper_eq_nocase (s t : string) :
  PyStr.upper s = PyStr.upper t <-> eq_nocase s t = true.
Proof.
  revert t. induction s as [|a s IH]; intros [|b t];
    rewrite ?upper_cons; simpl; try easy.
  rewrite andb_true_iff, <- IH, <- upper_char_same_letter, Ascii.eqb_eq.
  split.
  - intros H. now inversion H.
  - intros [-> ->]. reflexivity.
Qed.

Lemma upper_allowed (t : string) : In t allowed_types -> PyStr.upper t = t.
Proof.
  unfold allowed_types. simpl.
  intros H. repeat (destruct H as [<- | H]; [reflexivity|]). destruct H.
Qed.

Lemma in_allowed_types_In (x : string) :
  in_allowed_types x = true <-> In x allowed_types.
Proof.
  unfold in_allowed_types. rewrite existsb_exists. split.
  - intros [t [Ht Heq]]. apply String.eqb_eq in Heq. now subst.
  - intros H. exists x. split; [assumption | apply String.eqb_refl].
Qed.

(** *** White space of every kind *)

Lemma append_nil_r (s : string) : s ++ "" = s.
Proof. induction s as [|c s IH]; simpl; congruence. Qed.

Lemma append_assoc (a b c : string) : (a ++ b) ++ c = a ++ (b ++ c).
Proof. induction a as [|x a IH]; simpl; congruence. Qed.

Lemma append_length (a b : string) :
  String.length (a ++ b) = String.length a + String.length b.
Proof. induction a as [|x a IH]; simpl; congruence. Qed.

Lemma drop_prefix_spec (p s r : string) :
  PyStr.drop_prefix p s = Some r <-> s = p ++ r.
Proof.
  revert s. induction p as [|a p IH]; intros s; simpl.
  - split; congruence.
  - destruct s as [|b s]; [split; discriminate|].
    destruct (Ascii.eqb a b) eqn:Hab.
    + apply Ascii.eqb_eq in Hab. subst b. rewrite IH. split; congruence.
    + apply Ascii.eqb_neq in Hab. split; [discriminate | congruence].
Qed.

Lemma first_prefix_sound (l : list string) (s r : string) :
  fold_right
    (fun ws found =>
       match PyStr.drop_prefix ws s with
       | Some r => Some r
       | None => found
       end) None l = Some r ->
  exists ws, In ws l /\ s = ws ++ r.
Proof.
  induction l as [|x l IH]; simpl; [discriminate|].
  destruct (PyStr.drop_prefix x s) as [r'|] eqn:Hx.
  - intros H. injection H as <-. apply drop_prefix_spec in Hx. eauto.
  - intros H. destruct (IH H) as [ws [Hin Hs]]. eauto.
Qed.

Lemma space_head_sound (s r : string) :
  PyStr.space_head s = Some r ->
  exists ws, In ws PyStr.whitespace /\ s = ws ++ r.
Proof. apply first_prefix_sound. Qed.

Lemma space_head_complete (ws r : string) :
  In ws PyStr.whitespace -> PyStr.space_head (ws ++ r) = Some r.
Proof.
  unfold PyStr.whitespace. simpl In. intros H.
  repeat (destruct H as [<-|H]; [vm_compute; reflexivity|]).
  destruct H.
Qed.

Lemma whitespace_not_empty (ws : string) :
  In ws PyStr.whitespace -> 1 <= String.length ws.
Proof.
  unfold PyStr.whitespace. simpl In. intros H.
  repeat (destruct H as [<-|H]; [simpl; lia|]).
  destruct H.
Qed.

Lemma white_app (a b : string) : white a -> white b -> white (a ++ b).
Proof.
  induction 1 as [|ws s Hws Hs IH]; intros Hb; [exact Hb|].
  rewrite append_assoc. apply white_cons; auto.
Qed.

Lemma lstrip_steps_white (s : string) :
  white s -> forall n, String.length s <= n -> PyStr.lstrip_steps n s = "".
Proof.
  induction 1 as [|ws s Hws Hs IH]; intros n Hn.
  - destruct n; reflexivity.
  - pose proof (whitespace_not_empty ws Hws) as Hlen.
    rewrite append_length in Hn.
    destruct n as [|n]; [lia|].
    simpl. rewrite (space_head_complete ws s Hws). apply IH. lia.
Qed.

Lemma lstrip_steps_split (n : nat) (s : string) :
  exists pre, white pre /\ s = pre ++ PyStr.lstrip_steps n s.
Proof.
  revert s. induction n as [|n IH]; intros s; simpl.
  - exists "". split; [constructor | reflexivity].
  - destruct (PyStr.space_head s) as [r|] eqn:Hs.
    + destruct (space_head_sound s r Hs) as [ws [Hws ->]].
      destruct (IH r) as [pre [Hpre Hr]].
      exists (ws ++ pre). split; [now apply white_cons|].
      rewrite append_assoc. now rewrite <- Hr.
    + exists "". split; [constructor | reflexivity].
Qed.

(** [blank] decides [white]. *)
Lemma blank_white (s : string) : PyStr.blank s = true <-> white s.
Proof.
  unfold PyStr.blank, PyStr.lstrip_u. split.
  - intros H.
    destruct (lstrip_steps_split (String.length s) s) as [pre [Hpre Hs]].
    destruct (PyStr.lstrip_steps (String.length s) s); [|discriminate H].
    rewrite append_nil_r in Hs. now subst.
  - intros H. now rewrite (lstrip_steps_white s H _ (le_n _)).
Qed.

Lemma rstrip_u_empty (s : string) :
  PyStr.rstrip_u s = "" <-> PyStr.blank s = true.
Proof.
  destruct s as [|c r]; [split; reflexivity|].
  change (PyStr.rstrip_u (String c r))
    with (if PyStr.blank (String c r) then ""
          else String c (PyStr.rstrip_u r)).
  destruct (PyStr.blank (String c r)); split; congruence.
Qed.

(** [s.strip()] is empty exactly when [s] is white space throughout. *)
Lemma strip_u_white (s : string) : PyStr.strip_u s = "" <-> white s.
Proof.
  unfold PyStr.strip_u. rewrite rstrip_u_empty, blank_white.
  unfold PyStr.lstrip_u. split.
  - intros H.
    destruct (lstrip_steps_split (String.length s) s) as [pre [Hpre Hs]].
    rewrite Hs. now apply white_app.
  - intros H. rewrite (lstrip_steps_white s H _ (le_n _)). constructor.
Qed.

Lemma strip_u_not_white (s : string) :
  PyStr.strip_u s <> "" <-> ~ white s.
Proof. now rewrite strip_u_white. Qed.

(** *** Upper case of every kind *)

Lemma first_upper_sound (l : list (string * string)) (s h r : string) :
  fold_right
    (fun ku found =>
       match PyStr.drop_prefix (fst ku) s with
       | Some r' => Some (snd ku, r')
       | None => found
       end) None l = Some (h, r) ->
  exists k, In (k, h) l /\ s = k ++ r.
Proof.
  induction l as [|[k u] l IH]; simpl; [discriminate|].
  destruct (PyStr.drop_prefix k s) as [r'|] eqn:Hk.
  - intros H. injection H as <- <-. apply drop_prefix_spec in Hk. eauto.
  - intros H. destruct (IH H) as [k' [Hin Hs]]. eauto.
Qed.

Lemma same_letter_upper_char (c : ascii) :
  same_letter c (PyStr.upper_char c) = true.
Proof.
  revert c.
  assert (H : forall_ascii (fun c => same_letter c (PyStr.upper_char c)) = true)
    by (vm_compute; reflexivity).
  exact (forall_ascii_spec _ H).
Qed.

Lemma same_letter_upper (a b : ascii) :
  PyStr.is_upper b = true -> same_letter a b = true ->
  (N_of_ascii a <? 128)%N = true /\ PyStr.upper_char a = b.
Proof.
  revert b. revert a.
  assert (H : forall_ascii (fun a => forall_ascii (fun b =>
            implb (PyStr.is_upper b && same_letter a b)
                  ((N_of_ascii a <? 128)%N
                   && Ascii.eqb (PyStr.upper_char a) b))) = true)
    by (vm_compute; reflexivity).
  intros a b Hb Hab.
  pose proof (forall_ascii_spec _ H a) as Ha. cbv beta in Ha.
  pose proof (forall_ascii_spec _ Ha b) as Hab'. cbv beta in Hab'.
  rewrite Hb, Hab in Hab'. simpl in Hab'.
  apply andb_true_iff in Hab'. destruct Hab' as [H1 H2].
  apply Ascii.eqb_eq in H2. auto.
Qed.

(** A text without the letters S and F. *)
Lemma upper_steps_spells (n : nat) (s u : string) :
  PyStr.upper_steps n s = Some u ->
  all_chars (fun c => negb (Ascii.eqb c "S" || Ascii.eqb c "F")) u = true ->
  spells s u = true.
Proof.
  revert s u. induction n as [|n IH]; intros s u Hup Hsf.
  - destruct s; [|discriminate Hup]. injection Hup as <-. reflexivity.
  - destruct s as [|c r]; [injection Hup as <-; reflexivity|].
    cbn [PyStr.upper_steps] in Hup.
    destruct (PyStr.upper_head (String c r)) as [[h r']|] eqn:Hh;
      [|discriminate Hup].
    destruct (PyStr.upper_steps n r') as [v|] eqn:Hv; [|discriminate Hup].
    injection Hup as <-.
    unfold PyStr.upper_head in Hh.
    destruct (N_of_ascii c <? 128)%N.
    + injection Hh as <- <-. simpl in Hsf |- *.
      apply andb_true_iff in Hsf. destruct Hsf as [_ Hsf].
      rewrite same_letter_upper_char, (IH r v Hv Hsf). reflexivity.
    + apply first_upper_sound in Hh. destruct Hh as [k [Hin Hs]].
      unfold PyStr.ascii_uppers in Hin. simpl In in Hin.
      repeat (destruct Hin as [Hin|Hin];
              [injection Hin as <- <-;
               try (simpl in Hsf; repeat rewrite ?andb_false_r in Hsf;
                    discriminate Hsf)|]);
        [|destruct Hin].
      vm_compute in Hs. injection Hs as -> ->.
      change ("I" ++ v) with (String "I" v) in Hsf |- *.
      simpl in Hsf. cbn [spells].
      apply orb_true_iff. right. rewrite (IH r' v Hv Hsf). reflexivity.
Qed.

Lemma spells_upper_steps (t s : string) (n : nat) :
  all_chars PyStr.is_upper t = true ->
  spells s t = true ->
  String.length s <= n ->
  PyStr.upper_steps n s = Some t.
Proof.
  revert s n. induction t as [|b t IH]; intros s n Ht Hs Hn.
  - destruct s; [|discriminate Hs]. destruct n; reflexivity.
  - destruct s as [|a s]; [discriminate Hs|].
    simpl in Ht. apply andb_true_iff in Ht. destruct Ht as [Hb Ht].
    simpl in Hn. destruct n as [|n]; [lia|].
    cbn [spells] in Hs. apply orb_true_iff in Hs. destruct Hs as [Hs|Hs].
    + apply andb_true_iff in Hs. destruct Hs as [Hab Hs].
      destruct (same_letter_upper a b Hb Hab) as [Ha <-].
      cbn [PyStr.upper_steps PyStr.upper_head]. rewrite Ha.
      rewrite (IH s n Ht Hs) by lia. reflexivity.
    + apply andb_true_iff in Hs. destruct Hs as [Hs Hs'].
      apply andb_true_iff in Hs. destruct Hs as [HbI Ha].
      apply Ascii.eqb_eq in HbI, Ha. subst a b.
      destruct s as [|a2 s]; [discriminate Hs'|].
      apply andb_true_iff in Hs'. destruct Hs' as [Ha2 Hs'].
      apply Ascii.eqb_eq in Ha2. subst a2.
      simpl in Hn.
      cbn [PyStr.upper_steps].
      replace (PyStr.upper_head
                 (String (ascii_of_N 196) (String (ascii_of_N 177) s)))
        with (Some ("I", s)) by (vm_compute; reflexivity).
      rewrite (IH s n Ht Hs') by lia. reflexivity.
Qed.

Lemma allowed_types_upper (t : string) :
  In t allowed_types ->
  all_chars PyStr.is_upper t = true
  /\ all_chars (fun c => negb (Ascii.eqb c "S" || Ascii.eqb c "F")) t = true.
Proof.
  unfold allowed_types. simpl In. intros H.
  repeat (destruct H as [<-|H]; [split; reflexivity|]). destruct H.
Qed.

(** The membership test of [add_column] decides [whitelisted]. *)
Lemma upper_in_allowed_spec (data_type : string) :
  upper_in_allowed data_type = true <-> whitelisted data_type.
Proof.
  unfold upper_in_allowed, whitelisted, PyStr.upper_ascii. split.
  - destruct (PyStr.upper_steps (String.length data_type) data_type)
      as [u|] eqn:Hu; [|discriminate].
    intros H. apply in_allowed_types_In in H. exists u. split; [exact H|].
    apply (upper_steps_spells _ _ _ Hu).
    now apply allowed_types_upper.
  - intros [t [Ht Hs]].
    rewrite (spells_upper_steps t data_type _
               (proj1 (allowed_types_upper t Ht)) Hs (le_n _)).
    now apply in_allowed_types_In.
Qed.

(** On ASCII text, to spell a word is to equal it up to letter case. *)
Lemma spells_ascii (s t : string) :
  all_chars is_ascii s = true -> spells s t = eq_nocase s t.
Proof.
  revert s. induction t as [|b t IH]; intros [|a s] H; try reflexivity.
  cbn [all_chars] in H. apply andb_true_iff in H as [Ha Hs].
  cbn [spells eq_nocase]. rewrite (IH s Hs).
  assert (Hne : Ascii.eqb a (ascii_of_N 196) = false).
  { destruct (Ascii.eqb_spec a (ascii_of_N 196)) as [->|]; [|reflexivity].
    vm_compute in Ha. discriminate Ha. }
  rewrite Hne, andb_false_r. cbn [andb]. apply orb_false_r.
Qed.

Lemma whitelisted_ascii (data_type : string) :
  all_chars is_ascii data_type = true ->
  whitelisted data_type
  <-> exists t, In t allowed_types /\ eq_nocase data_type t = true.
Proof.
  intros H. unfold whitelisted. split; intros [t [Ht Hs]]; exists t;
    (split; [exact Ht|]).
  - now rewrite <- (spells_ascii _ t H).
  - now rewrite (spells_ascii _ t H).
Qed.

Lemma strip_empty : PyStr.strip "" = "".
Proof. reflexivity. Qed.

Lemma nonempty_false (s : string) : PyStr.nonempty s = false <-> s = "".
Proof. destruct s; simpl; split; intros H; congruence. Qed.

(* ------------------------------------------------------------------ *)
(** ** Running the monad *)

Section Steps.

Context {E : Env}.

Lemma connect_ok (p : string) (s : state E) (c : conn E) (w1 : world E) :
  connect E p (st_world s) = (Ok c, w1) ->
  sqlite3_connect p s = (Ok c, State w1 (Some c) (st_log s ++ [EConnect p])).
Proof. intros H. unfold sqlite3_connect, driver_call. now rewrite H. Qed.

Lemma connect_raise (p : string) (s : state E) (e : exn) (w1 : world E) :
  connect E p (st_world s) = (Raise e, w1) ->
  sqlite3_connect p s
    = (Raise e, State w1 (st_conn s) (st_log s ++ [EConnect p; ERaise e])).
Proof. intros H. unfold sqlite3_connect, driver_call. now rewrite H. Qed.

Lemma driver_call_ok {A : Type} (ev : event)
  (f : world E -> result A * world E) (s : state E) (a : A) (w1 : world E) :
  f (st_world s) = (Ok a, w1) ->
  driver_call ev f s = (Ok a, State w1 (st_conn s) (st_log s ++ [ev])).
Proof. intros H. unfold driver_call. now rewrite H. Qed.

Lemma driver_call_raise {A : Type} (ev : event)
  (f : world E -> result A * world E) (s : state E) (e : exn) (w1 : world E) :
  f (st_world s) = (Raise e, w1) ->
  driver_call (A:=A) ev f s
    = (Raise e, State w1 (st_conn s) (st_log s ++ [ev; ERaise e])).
Proof. intros H. unfold driver_call. now rewrite H. Qed.

(** *** Tidy computations *)

Lemma no_raise_nil : no_raise [].
Proof. intros e H. destruct H. Qed.

Lemma no_raise_app (l1 l2 : list event) :
  no_raise l1 -> no_raise l2 -> no_raise (l1 ++ l2).
Proof.
  intros H1 H2 e H. apply in_app_or in H. destruct H as [H|H].
  - exact (H1 e H).
  - exact (H2 e H).
Qed.

Lemma no_raise_call (ev : event) :
  (forall e, ev <> ERaise e) -> no_raise [ev].
Proof.
  intros Hev e [H|[]]. exact (Hev e H).
Qed.

Lemma tidy_ret {A : Type} (a : A) : tidy (ret (E:=E) a).
Proof.
  intros s. exists []. split; [apply no_raise_nil|].
  simpl. now rewrite app_nil_r.
Qed.

Lemma tidy_raise {A : Type} (e : exn) : tidy (raise (E:=E) (A:=A) e).
Proof.
  intros s. exists []. split; [apply no_raise_nil|]. reflexivity.
Qed.

Lemma tidy_bind {A B : Type} (m : M E A) (k : A -> M E B) :
  tidy m -> (forall a, tidy (k a)) -> tidy (bind m k).
Proof.
  intros Hm Hk s. unfold bind.
  destruct (Hm s) as [l [Hl Hs]].
  destruct (m s) as [[a|e] s'].
  - destruct (Hk a s') as [l' [Hl' Hs']].
    exists (l ++ l')%list. split; [now apply no_raise_app|].
    destruct (k a s') as [[b|e] s'']; rewrite Hs', Hs;
      now rewrite <- ?app_assoc.
  - exists l. split; assumption.
Qed.

Lemma tidy_driver_call {A : Type} (ev : event)
  (f : world E -> result A * world E) :
  (forall e, ev <> ERaise e) -> tidy (driver_call ev f).
Proof.
  intros Hev s. exists [ev]. split; [now apply no_raise_call|].
  unfold driver_call. destruct (f (st_world s)) as [[a|e] w1]; reflexivity.
Qed.

Lemma tidy_connect (p : string) : tidy (sqlite3_connect (E:=E) p).
Proof.
  intros s. exists [EConnect p].
  split; [apply no_raise_call; discriminate|].
  unfold sqlite3_connect, driver_call.
  destruct (connect E p (st_world s)) as [[c|e] w1]; reflexivity.
Qed.

Lemma tidy_item (row : list pyval) (i : nat) : tidy (item (E:=E) row i).
Proof.
  unfold item. destruct (nth_error row i); [apply tidy_ret | apply tidy_raise].
Qed.

Lemma tidy_for_each {A B : Type} (f : A -> M E B) (l : list A) :
  (forall a, tidy (f a)) -> tidy (for_each f l).
Proof.
  intros Hf. induction l as [|x r IH]; simpl.
  - apply tidy_ret.
  - apply tidy_bind; [apply Hf|]. intros y.
    apply tidy_bind; [apply IH|]. intros ys. apply tidy_ret.
Qed.

Lemma tidy_column_names_of (cur : cursor) :
  tidy (column_names_of (E:=E) cur).
Proof.
  unfold column_names_of.
  destruct (description cur); [apply tidy_ret | apply tidy_raise].
Qed.

(** A tidy computation only appends to the log. *)
Lemma tidy_grows {A : Type} (m : M E A) (s : state E) :
  tidy m -> exists l, st_log (snd (m s)) = (st_log s ++ l)%list.
Proof.
  intros Hm. destruct (Hm s) as [l [_ Hs]].
  destruct (m s) as [[a|e] s']; simpl; eauto.
Qed.

(** *** The shape shared by the seven tools

    [try: body  except Exception as e: return f e  finally: close]. *)

Lemma guarded_returns {A : Type} (body : M E A) (f : exn -> A)
  (w : world E) :
  tidy body ->
  exists r,
    returned
      (run (try_finally (try_except body (fun e => ret (f e))) finally_close)
           w) = Ok r
    /\ forall e,
        In (ERaise e)
           (calls
              (run (try_finally (try_except body (fun e => ret (f e)))
                                finally_close) w)) ->
        r = f e.
Proof.
  intros Hb. unfold run, try_finally, try_except.
  destruct (Hb (State w None [])) as [l [Hl Hs]].
  destruct (body (State w None [])) as [[a|e0] s']; simpl in *.
  - exists a. unfold finally_close.
    destruct (st_conn s'); simpl; (split; [reflexivity|]);
      intros e He; rewrite Hs in He; exfalso.
    + apply in_app_or in He. destruct He as [He|[He|[]]];
        [exact (Hl e He) | discriminate He].
    + exact (Hl e He).
  - exists (f e0). unfold finally_close.
    destruct (st_conn s'); simpl; (split; [reflexivity|]);
      intros e He; rewrite Hs in He.
    + apply in_app_or in He. destruct He as [He|[He|[]]]; [|discriminate He].
      apply in_app_or in He. destruct He as [He|[He|[]]].
      * exfalso. exact (Hl e He).
      * now inversion He.
    + apply in_app_or in He. destruct He as [He|[He|[]]].
      * exfalso. exact (Hl e He).
      * now inversion He.
Qed.

(** A tool whose body starts by connecting makes that call first. *)
Lemma guarded_connect_first {A : Type} (p : string)
  (k : conn E -> M E A) (f : exn -> A) (w : world E) :
  (forall c, tidy (k c)) ->
  exists tl,
    calls
      (run (try_finally
              (try_except (bind (sqlite3_connect p) k) (fun e => ret (f e)))
              finally_close) w) = EConnect p :: tl.
Proof.
  intros Hk. unfold run, try_finally, try_except, bind.
  destruct (connect E p w) as [[c|e] w1] eqn:Hc.
  - rewrite (connect_ok p (State w None []) c w1 Hc). simpl.
    destruct (tidy_grows (k c) (State w1 (Some c) [EConnect p]) (Hk c))
      as [l Hl].
    destruct (k c (State w1 (Some c) [EConnect p])) as [[a|e] s'];
      simpl in *; unfold finally_close;
      destruct (st_conn s'); simpl; rewrite Hl; simpl; eauto.
  - rewrite (connect_raise p (State w None []) e w1 Hc). simpl. eauto.
Qed.

End Steps.

Ltac tidy_call :=
  unfold cursor_execute, cursor_fetchall, conn_commit;
  apply tidy_driver_call; discriminate.

Ltac tidy :=
  repeat first
    [ apply tidy_ret | apply tidy_raise | apply tidy_connect
    | apply tidy_item | apply tidy_column_names_of | tidy_call
    | apply tidy_bind; [|intros ?]
    | apply tidy_for_each; intros ?
    | match goal with
      | |- tidy (if ?b then _ else _) => destruct b
      end ].

(* ------------------------------------------------------------------ *)
(** ** Preconditions checked before the store is reached *)

(** C3. [update_rows] with an empty [where], [delete_rows] with an empty
    [where] and [update_rows] with an empty [data] return the error result
    without any driver call: the log is empty (no connection is opened) and
    the world is the one the call started in. *)
Theorem empty_conditions_never_touch_store
  (E : Env) (table : string) (data where_ : dict) (db_path : string)
  (w : world E) :
  run (update_rows E table data [] db_path) w
    = Outcome (Ok (error_result "Both 'data' and 'where' must be provided")) w []
  /\ run (delete_rows E table [] db_path) w
    = Outcome
        (Ok (error_result "'where' condition required to avoid accidental deletion"))
        w []
  /\ run (update_rows E table [] where_ db_path) w
    = Outcome (Ok (error_result "Both 'data' and 'where' must be provided")) w [].
Proof.
  split; [|split].
  - unfold update_rows. rewrite orb_true_r. reflexivity.
  - reflexivity.
  - reflexivity.
Qed.

(** C5. [add_column] called with an empty table name, an empty column name
    (or one made of white space only, which [str.strip] makes empty) or a
    declared type that is not, letter case apart, one of the seven
    whitelisted types returns an error result with no driver call and the
    world untouched.  A whitelisted type in any letter case passes the
    check: with table and column names that hold more than white space, the
    first thing the call does is open the connection. *)
Theorem add_column_validation
  (E : Env) (table column_name data_type db_path : string) (w : world E) :
  (table = "" \/ column_name = "" \/ white table \/ white column_name
   \/ ~ whitelisted data_type ->
   exists msg,
     run (add_column E table column_name data_type db_path) w
       = Outcome (Ok [[("error", PStr msg)]]) w [])
  /\
  (whitelisted data_type ->
   ~ white table -> ~ white column_name ->
   exists tl,
     calls (run (add_column E table column_name data_type db_path) w)
       = EConnect db_path :: tl).
Proof.
  split.
  - intros H. unfold add_column.
    destruct (PyStr.nonempty (PyStr.strip_u table)) eqn:Ht; simpl;
      [|eexists; reflexivity].
    destruct (PyStr.nonempty (PyStr.strip_u column_name)) eqn:Hc; simpl;
      [|eexists; reflexivity].
    destruct (upper_in_allowed data_type) eqn:Hd; simpl;
      [|eexists; reflexivity].
    exfalso. destruct H as [-> | [-> | [H | [H | H]]]].
    + vm_compute in Ht. discriminate Ht.
    + vm_compute in Hc. discriminate Hc.
    + apply strip_u_white in H. rewrite H in Ht. discriminate Ht.
    + apply strip_u_white in H. rewrite H in Hc. discriminate Hc.
    + apply H. now apply upper_in_allowed_spec.
  - intros Hw Ht Hc. unfold add_column.
    destruct (PyStr.nonempty (PyStr.strip_u table)) eqn:Ht';
      [|apply nonempty_false in Ht'; now apply strip_u_white in Ht'].
    destruct (PyStr.nonempty (PyStr.strip_u column_name)) eqn:Hc';
      [|apply nonempty_false in Hc'; now apply strip_u_white in Hc'].
    apply upper_in_allowed_spec in Hw. rewrite Hw. simpl.
    apply guarded_connect_first. intros c. tidy.
Qed.

Lemma add_column_validation_witness :
  (exists msg,
     run (add_column Replay.env (PyStr.of_bytes [194; 160]%N) "age" "INTEGER"
            "shop.db")
         (Replay.session [])
       = Outcome (Ok [[("error", PStr msg)]]) (Replay.session []) [])
  /\
  (exists tl,
     calls (run (add_column Replay.env "t" "age"
                   (PyStr.of_bytes [196; 177]%N ++ "nteger") "shop.db")
              (Replay.session [Replay.Connected]))
       = EConnect "shop.db" :: tl).
Proof.
  split.
  - apply (proj1 (add_column_validation Replay.env (PyStr.of_bytes [194; 160]%N)
                    "age" "INTEGER" "shop.db" (Replay.session []))).
    right. right. left.
    apply (white_cons (PyStr.of_bytes [194; 160]%N) "");
      [vm_compute; tauto | exact white_nil].
  - apply (proj2 (add_column_validation Replay.env "t" "age"
                    (PyStr.of_bytes [196; 177]%N ++ "nteger") "shop.db"
                    (Replay.session [Replay.Connected]))).
    + exists "INTEGER". split; [simpl; tauto | reflexivity].
    + intros H. apply strip_u_white in H. vm_compute in H. discriminate H.
    + intros H. apply strip_u_white in H. vm_compute in H. discriminate H.
Defined.

(* ------------------------------------------------------------------ *)
(** ** Errors at the boundary of a tool *)

Lemma add_column_error_shape (table column_name : string) (e : exn) :
  exists msg, add_column_error table column_name e = error_result msg.
Proof.
  unfold add_column_error.
  destruct (exn_cls e);
    repeat match goal with
           | |- context [if ?b then _ else _] => destruct b
           end; eexists; reflexivity.
Qed.

(** C4. Whatever the inputs and whatever the driver does, each of the seven
    tools returns a value: no exception leaves the function.  When an
    exception is raised on the way (by a driver call or by the code
    itself), the value returned is the error result carrying its message:
    [[{"error": str(e)}]] for the tools that return dicts (with the
    message chosen by the two handlers of [add_column]) and
    [["error: " + str(e)]] for [list_tables].  The precondition failures of
    [insert_row], [update_rows], [delete_rows] and [add_column] are error
    results as well. *)
Theorem no_uncaught_fault (E : Env) (w : world E) :
  (forall query db_path,
     exists r,
       returned (run (execute_sql_query E query db_path) w) = Ok r
       /\ forall e,
           In (ERaise e) (calls (run (execute_sql_query E query db_path) w)) ->
           r = [[("error", PStr (exn_str e))]])
  /\ (forall db_path,
        exists r,
          returned (run (get_database_schema E db_path) w) = Ok r
          /\ forall e,
              In (ERaise e) (calls (run (get_database_schema E db_path) w)) ->
              r = [SchemaError (exn_str e)])
  /\ (forall db_path,
        exists r,
          returned (run (list_tables E db_path) w) = Ok r
          /\ forall e,
              In (ERaise e) (calls (run (list_tables E db_path) w)) ->
              r = [PStr ("error: " ++ exn_str e)])
  /\ (forall table data db_path,
        exists r,
          returned (run (insert_row E table data db_path) w) = Ok r
          /\ (data = [] -> r = [[("error", PStr "No data provided")]])
          /\ forall e,
              In (ERaise e) (calls (run (insert_row E table data db_path) w)) ->
              r = [[("error", PStr (exn_str e))]])
  /\ (forall table data where_ db_path,
        exists r,
          returned (run (update_rows E table data where_ db_path) w) = Ok r
          /\ (data = [] \/ where_ = [] ->
              r = [[("error", PStr "Both 'data' and 'where' must be provided")]])
          /\ forall e,
              In (ERaise e)
                 (calls (run (update_rows E table data where_ db_path) w)) ->
              r = [[("error", PStr (exn_str e))]])
  /\ (forall table where_ db_path,
        exists r,
          returned (run (delete_rows E table where_ db_path) w) = Ok r
          /\ (where_ = [] ->
              r = [[("error",
                     PStr "'where' condition required to avoid accidental deletion")]])
          /\ forall e,
              In (ERaise e) (calls (run (delete_rows E table where_ db_path) w)) ->
              r = [[("error", PStr (exn_str e))]])
  /\ (forall table column_name data_type db_path,
        exists r,
          returned (run (add_column E table column_name data_type db_path) w)
            = Ok r
          /\ (white table \/ white column_name \/ ~ whitelisted data_type ->
              exists msg, r = [[("error", PStr msg)]])
          /\ forall e,
              In (ERaise e)
                 (calls (run (add_column E table column_name data_type db_path) w)) ->
              r = add_column_error table column_name e
              /\ exists msg, r = [[("error", PStr msg)]]).
Proof.
  repeat apply conj.
  - intros query db_path. apply guarded_returns. tidy.
  - intros db_path. apply guarded_returns. tidy.
  - intros db_path. apply guarded_returns. tidy.
  - intros table [|kv data] db_path.
    + eexists. split; [reflexivity|]. split; [reflexivity|]. intros e [].
    + destruct (guarded_returns
                  (bind (sqlite3_connect db_path)
                     (fun c =>
                        bind (cursor_execute c
                                (insert_row_sql table (kv :: data))
                                (values (kv :: data)))
                          (fun cur =>
                             bind (conn_commit c)
                               (fun _ => ret [[("inserted_id", lastrowid cur)]]))))
                  (fun e => error_result (exn_str e)) w) as [r [Hr He]];
        [tidy|].
      exists r. split; [exact Hr|]. split; [discriminate | exact He].
  - intros table data where_ db_path. unfold update_rows.
    destruct (is_empty data || is_empty where_) eqn:Hemp.
    + eexists. split; [reflexivity|]. split; [reflexivity|]. intros e [].
    + match goal with
      | |- context [run (try_finally (try_except ?b ?h) _) w] =>
          destruct (guarded_returns b (fun e => error_result (exn_str e)) w)
            as [r [Hr He]]; [tidy|]
      end.
      exists r. split; [exact Hr|]. split; [|exact He].
      intros [-> | ->]; simpl in Hemp; [discriminate|].
      rewrite orb_true_r in Hemp. discriminate.
  - intros table where_ db_path. unfold delete_rows.
    destruct (is_empty where_) eqn:Hemp.
    + eexists. split; [reflexivity|]. split; [reflexivity|]. intros e [].
    + match goal with
      | |- context [run (try_finally (try_except ?b ?h) _) w] =>
          destruct (guarded_returns b (fun e => error_result (exn_str e)) w)
            as [r [Hr He]]; [tidy|]
      end.
      exists r. split; [exact Hr|]. split; [|exact He].
      intros ->. discriminate Hemp.
  - intros table column_name data_type db_path. unfold add_column.
    destruct (PyStr.nonempty (PyStr.strip_u table)) eqn:Ht; simpl;
      [|eexists; split; [reflexivity|]; split;
         [intros _; eexists; reflexivity | intros e []]].
    destruct (PyStr.nonempty (PyStr.strip_u column_name)) eqn:Hc; simpl;
      [|eexists; split; [reflexivity|]; split;
         [intros _; eexists; reflexivity | intros e []]].
    destruct (upper_in_allowed data_type) eqn:Hd; simpl;
      [|eexists; split; [reflexivity|]; split;
         [intros _; eexists; reflexivity | intros e []]].
    match goal with
    | |- context [run (try_finally (try_except ?b ?h) _) w] =>
        destruct (guarded_returns b (add_column_error table column_name) w)
          as [r [Hr He]]; [tidy|]
    end.
    exists r. split; [exact Hr|]. split.
    + intros [H | [H | H]].
      * apply strip_u_white in H. rewrite H in Ht. discriminate Ht.
      * apply strip_u_white in H. rewrite H in Hc. discriminate Hc.
      * exfalso. apply H. now apply upper_in_allowed_spec.
    + intros e Hin. rewrite (He e Hin). split; [reflexivity|].
      apply add_column_error_shape.
Qed.

(* ------------------------------------------------------------------ *)
(** ** execute_sql_query *)

Lemma lstrip_split (s : string) :
  exists ws, s = ws ++ PyStr.lstrip s /\ all_chars PyStr.is_space ws = true.
Proof.
  induction s as [|c r [ws [Hr Hws]]]; simpl.
  - exists "". split; reflexivity.
  - destruct (PyStr.is_space c) eqn:Hc.
    + exists (String c ws). simpl. rewrite Hc, Hws. split; [|reflexivity].
      now rewrite <- Hr.
    + exists "". split; reflexivity.
Qed.

Lemma lstrip_app_space (ws s : string) :
  all_chars PyStr.is_space ws = true ->
  PyStr.lstrip (ws ++ s) = PyStr.lstrip s.
Proof.
  induction ws as [|c ws IH]; simpl; [reflexivity|].
  intros H. apply andb_true_iff in H. destruct H as [Hc Hws].
  rewrite Hc. now apply IH.
Qed.

Lemma upper_char_space (c : ascii) :
  PyStr.is_space (PyStr.upper_char c) = PyStr.is_space c.
Proof.
  revert c.
  assert (H : forall_ascii (fun c =>
            Bool.eqb (PyStr.is_space (PyStr.upper_char c)) (PyStr.is_space c))
          = true) by (vm_compute; reflexivity).
  intros c. apply Bool.eqb_prop. exact (forall_ascii_spec _ H c).
Qed.

Lemma prefix_empty (s : string) : String.prefix "" s = true.
Proof. destruct s; reflexivity. Qed.

(** Trailing white space does not matter to a prefix free of white space. *)
Lemma prefix_upper_rstrip (p s : string) :
  all_chars (fun c => negb (PyStr.is_space c)) p = true ->
  String.prefix p (PyStr.upper (PyStr.rstrip s))
    = String.prefix p (PyStr.upper s).
Proof.
  revert p. induction s as [|c r IH]; intros p Hp; [reflexivity|].
  destruct p as [|a p']; [now rewrite !prefix_empty|].
  simpl in Hp. apply andb_true_iff in Hp. destruct Hp as [Ha Hp'].
  specialize (IH p' Hp'). rewrite upper_cons. simpl.
  destruct (PyStr.rstrip r) as [|c' r'] eqn:Hr.
  - destruct (PyStr.is_space c) eqn:Hc.
    + simpl. destruct (ascii_dec a (PyStr.upper_char c)) as [->|]; [|reflexivity].
      rewrite upper_char_space, Hc in Ha. discriminate Ha.
    + rewrite upper_cons. simpl.
      destruct (ascii_dec a (PyStr.upper_char c)); [exact IH | reflexivity].
  - rewrite upper_cons. simpl.
    destruct (ascii_dec a (PyStr.upper_char c)); [|reflexivity].
    rewrite <- IH. now rewrite upper_cons.
Qed.

Lemma prefix_upper_spec (p s : string) :
  String.prefix p (PyStr.upper s) = true
  <-> exists kw rest, s = kw ++ rest /\ PyStr.upper kw = p.
Proof.
  revert s. induction p as [|a p IH]; intros s.
  - rewrite prefix_empty. split; [|reflexivity].
    intros _. exists "", s. split; reflexivity.
  - destruct s as [|c r].
    + split; [discriminate|]. intros [kw [rest [Hs Hk]]].
      destruct kw; [discriminate Hk | discriminate Hs].
    + rewrite upper_cons. simpl.
      destruct (ascii_dec a (PyStr.upper_char c)) as [->|Hne].
      * rewrite IH. split.
        -- intros [kw [rest [-> <-]]]. exists (String c kw), rest.
           split; reflexivity.
        -- intros [kw [rest [Hs Hk]]]. destruct kw as [|c' kw];
             [discriminate Hk|].
           rewrite upper_cons in Hk. simpl in Hs.
           inversion Hs; inversion Hk; subst. eauto.
      * split; [discriminate|]. intros [kw [rest [Hs Hk]]].
        destruct kw as [|c' kw]; [discriminate Hk|].
        rewrite upper_cons in Hk. simpl in Hs.
        inversion Hs; inversion Hk; subst. now contradiction Hne.
Qed.

Lemma nocase_select_head (kw : string) :
  eq_nocase kw "SELECT" = true ->
  exists c kw', kw = String c kw' /\ PyStr.is_space c = false.
Proof.
  destruct kw as [|c kw]; [discriminate|]. simpl.
  intros H. apply andb_true_iff in H. destruct H as [Hc _].
  exists c, kw. split; [reflexivity|].
  assert (H : forall_ascii (fun c =>
            negb (same_letter c "S" && PyStr.is_space c)) = true)
    by (vm_compute; reflexivity).
  pose proof (forall_ascii_spec _ H c) as Hs. cbv beta in Hs.
  rewrite Hc in Hs. simpl in Hs. now destruct (PyStr.is_space c).
Qed.

(** The test of [execute_sql_query] decides [begins_with_select]. *)
Lemma is_select_spec (query : string) :
  is_select query = true <-> begins_with_select query.
Proof.
  unfold is_select, PyStr.startswith, PyStr.strip, begins_with_select.
  rewrite prefix_upper_rstrip by reflexivity.
  rewrite prefix_upper_spec. split.
  - intros [kw [rest [Hs Hk]]].
    destruct (lstrip_split query) as [ws [Hq Hws]].
    exists ws, kw, rest. split; [|split].
    + rewrite Hq at 1. now rewrite Hs.
    + exact Hws.
    + now apply upper_eq_nocase.
  - intros [ws [kw [rest [-> [Hws Hk]]]]].
    exists kw, rest. split; [|now apply upper_eq_nocase in Hk].
    rewrite lstrip_app_space by assumption.
    destruct (nocase_select_head kw Hk) as [c [kw' [-> Hc]]].
    simpl. now rewrite Hc.
Qed.

(** One driver call, answered by a hypothesis of the context. *)
Ltac step :=
  first
    [ erewrite connect_ok by (cbn [st_world]; eassumption)
    | erewrite connect_raise by (cbn [st_world]; eassumption)
    | erewrite driver_call_ok by (cbn [st_world]; eassumption)
    | erewrite driver_call_raise by (cbn [st_world]; eassumption) ];
  cbn beta iota zeta delta [st_world st_conn st_log app].

Ltac start_run :=
  unfold run, try_finally, try_except, bind, cursor_execute, cursor_fetchall,
    conn_commit, finally_close, ret;
  cbn beta iota zeta delta [st_world st_conn st_log app].

Lemma execute_sql_query_read
  (E : Env) (query db_path : string) (w w1 w2 w3 : world E) (c : conn E)
  (cur : cursor) (names : list string) (rows : list (list pyval)) :
  is_select query = true ->
  connect E db_path w = (Ok c, w1) ->
  execute E c query [] w1 = (Ok cur, w2) ->
  description cur = Some names ->
  fetchall E c w2 = (Ok rows, w3) ->
  run (execute_sql_query E query db_path) w
    = Outcome (Ok (map (fun row => dict_of_pairs (zip names row)) rows))
        (close E c w3)
        [EConnect db_path; EExecute query []; EFetchall; EClose].
Proof.
  intros Hsel Hconn Hexec Hdesc Hfetch.
  unfold execute_sql_query. start_run. step. step.
  rewrite Hsel. unfold column_names_of. rewrite Hdesc.
  start_run. step. reflexivity.
Qed.

Lemma execute_sql_query_write
  (E : Env) (query db_path : string) (w w1 w2 w3 : world E) (c : conn E)
  (cur : cursor) :
  is_select query = false ->
  connect E db_path w = (Ok c, w1) ->
  execute E c query [] w1 = (Ok cur, w2) ->
  commit E c w2 = (Ok tt, w3) ->
  run (execute_sql_query E query db_path) w
    = Outcome (Ok [[("rows_affected", PInt (rowcount cur))]])
        (close E c w3)
        [EConnect db_path; EExecute query []; ECommit; EClose].
Proof.
  intros Hsel Hconn Hexec Hcommit.
  unfold execute_sql_query. start_run. step. step.
  rewrite Hsel. step. reflexivity.
Qed.

Ltac no_such_call :=
  simpl; intros H;
  repeat (destruct H as [H|H]; [discriminate H|]); destruct H.

(** Whatever the driver answers, a read never commits and a write never
    fetches. *)
Lemma execute_sql_query_branch
  (E : Env) (query db_path : string) (w : world E) :
  (is_select query = true ->
   ~ In ECommit (calls (run (execute_sql_query E query db_path) w)))
  /\ (is_select query = false ->
      ~ In EFetchall (calls (run (execute_sql_query E query db_path) w))).
Proof.
  split; intros Hsel; unfold execute_sql_query; rewrite Hsel;
    unfold run, try_finally, try_except, bind, cursor_execute, cursor_fetchall,
      conn_commit, finally_close, ret, sqlite3_connect, driver_call,
      column_names_of, raise; simpl;
    (destruct (connect E db_path w) as [[c|e] w1]; simpl; [|no_such_call]);
    (destruct (execute E c query [] w1) as [[cur|e] w2]; simpl;
     [|no_such_call]).
  - destruct (description cur) as [names|]; simpl; [|no_such_call].
    destruct (fetchall E c w2) as [[rows|e] w3]; no_such_call.
  - destruct (commit E c w2) as [[u|e] w3]; no_such_call.
Qed.

(** C6. [execute_sql_query] classifies the statement by its leading keyword
    alone.  A text that, leading white space apart, begins with SELECT in
    any letter case is a read: it is never committed and, the store raising
    no error, its rows are fetched and returned as records.  Any other text
    is a write: nothing is fetched and, the store raising no error, it is
    committed and the result is [[{"rows_affected": cursor.rowcount}]]. *)
Theorem execute_sql_query_classification
  (E : Env) (query db_path : string) (w : world E) :
  (begins_with_select query ->
   ~ In ECommit (calls (run (execute_sql_query E query db_path) w))
   /\ forall c w1 cur w2 names rows w3,
       connect E db_path w = (Ok c, w1) ->
       execute E c query [] w1 = (Ok cur, w2) ->
       description cur = Some names ->
       fetchall E c w2 = (Ok rows, w3) ->
       run (execute_sql_query E query db_path) w
         = Outcome (Ok (map (fun row => dict_of_pairs (zip names row)) rows))
             (close E c w3)
             [EConnect db_path; EExecute query []; EFetchall; EClose])
  /\
  (~ begins_with_select query ->
   ~ In EFetchall (calls (run (execute_sql_query E query db_path) w))
   /\ forall c w1 cur w2 w3,
       connect E db_path w = (Ok c, w1) ->
       execute E c query [] w1 = (Ok cur, w2) ->
       commit E c w2 = (Ok tt, w3) ->
       run (execute_sql_query E query db_path) w
         = Outcome (Ok [[("rows_affected", PInt (rowcount cur))]])
             (close E c w3)
             [EConnect db_path; EExecute query []; ECommit; EClose]).
Proof.
  split.
  - intros Hsel. apply is_select_spec in Hsel. split.
    + now apply execute_sql_query_branch.
    + intros c w1 cur w2 names rows w3 Hconn Hexec Hdesc Hfetch.
      now apply execute_sql_query_read with (w1 := w1) (w2 := w2) (cur := cur).
  - intros Hsel.
    assert (Hs : is_select query = false).
    { destruct (is_select query) eqn:Hq; [|reflexivity].
      exfalso. apply Hsel. now apply is_select_spec. }
    split.
    + now apply execute_sql_query_branch.
    + intros c w1 cur w2 w3 Hconn Hexec Hcommit.
      now apply execute_sql_query_write with (w1 := w1) (w2 := w2).
Qed.

Lemma execute_sql_query_classification_witness :
  run (execute_sql_query Replay.env "  select id, name from t" "shop.db")
      (Replay.session
         [Replay.Connected;
          Replay.Executed (Cursor (Some ["id"; "name"]) (-1) PNone);
          Replay.Fetched [[PInt 1; PStr "Alice"]]])
    = Outcome (Ok [[("id", PInt 1); ("name", PStr "Alice")]])
        (Replay.session [])
        [EConnect "shop.db"; EExecute "  select id, name from t" [];
         EFetchall; EClose]
  /\
  run (execute_sql_query Replay.env "DELETE FROM t WHERE id = 2" "shop.db")
      (Replay.session
         [Replay.Connected; Replay.Executed (Cursor None 0 PNone);
          Replay.Committed])
    = Outcome (Ok [[("rows_affected", PInt 0)]])
        (Replay.Tape [] 1 : world Replay.env)
        [EConnect "shop.db"; EExecute "DELETE FROM t WHERE id = 2" [];
         ECommit; EClose].
Proof.
  split.
  - assert (Hsel : begins_with_select "  select id, name from t").
    { exists "  ", "select", " id, name from t". repeat split. }
    exact (proj2 (proj1 (execute_sql_query_classification Replay.env
                           "  select id, name from t" "shop.db"
                           (Replay.session
                              [Replay.Connected;
                               Replay.Executed
                                 (Cursor (Some ["id"; "name"]) (-1) PNone);
                               Replay.Fetched [[PInt 1; PStr "Alice"]]]))
                    Hsel)
             tt _ _ _ ["id"; "name"] [[PInt 1; PStr "Alice"]] _
             eq_refl eq_refl eq_refl eq_refl).
  - assert (Hsel : ~ begins_with_select "DELETE FROM t WHERE id = 2").
    { intros H. apply is_select_spec in H. vm_compute in H. discriminate H. }
    exact (proj2 (proj2 (execute_sql_query_classification Replay.env
                           "DELETE FROM t WHERE id = 2" "shop.db"
                           (Replay.session
                              [Replay.Connected;
                               Replay.Executed (Cursor None 0 PNone);
                               Replay.Committed]))
                    Hsel)
             tt _ _ _ _ eq_refl eq_refl eq_refl).
Defined.

(* ------------------------------------------------------------------ *)
(** ** Records built from a result description *)

Lemma dict_get_set (k k' : string) (v : pyval) (d : dict) :
  dict_get k' (dict_set k v d)
    = if String.eqb k' k then Some v else dict_get k' d.
Proof.
  induction d as [|[k0 v0] r IH]; simpl; [reflexivity|].
  destruct (String.eqb k k0) eqn:Hk; simpl.
  - apply String.eqb_eq in Hk. subst k0.
    now destruct (String.eqb k' k).
  - rewrite IH. destruct (String.eqb k' k0) eqn:Hk0; [|reflexivity].
    apply String.eqb_eq in Hk0. subst k0.
    rewrite String.eqb_sym, Hk. reflexivity.
Qed.

Lemma dict_get_fold_other (k : string) (ps : list (string * pyval)) (d : dict) :
  ~ In k (map fst ps) ->
  dict_get k (fold_left (fun d p => dict_set (fst p) (snd p) d) ps d)
    = dict_get k d.
Proof.
  revert d. induction ps as [|[k0 v0] ps IH]; intros d Hk; simpl;
    [reflexivity|].
  rewrite IH by (intros H; apply Hk; now right).
  rewrite dict_get_set.
  destruct (String.eqb k k0) eqn:Hk0; [|reflexivity].
  apply String.eqb_eq in Hk0. exfalso. apply Hk. now left.
Qed.

(** The value kept for a name is the one of its last column. *)
Lemma dict_get_zip (names : list string) (row : list pyval) (d : dict)
  (j : nat) (name : string) :
  length row = length names ->
  nth_error names j = Some name ->
  (forall j', j < j' -> nth_error names j' <> Some name) ->
  dict_get name
    (fold_left (fun d p => dict_set (fst p) (snd p) d) (zip names row) d)
    = nth_error row j.
Proof.
  revert row d j. induction names as [|n ns IH]; intros row d j Hlen Hj Hlast.
  - destruct j; discriminate Hj.
  - destruct row as [|v vs]; [discriminate Hlen|]. simpl in Hlen.
    injection Hlen as Hlen. simpl. destruct j as [|j]; simpl in *.
    + injection Hj as ->.
      rewrite dict_get_fold_other.
      * now rewrite dict_get_set, String.eqb_refl.
      * intros Hin. apply in_map_iff in Hin.
        destruct Hin as [[k0 v0] [Hk0 Hin]]. simpl in Hk0. subst k0.
        apply in_combine_l in Hin. apply In_nth_error in Hin.
        destruct Hin as [i Hi]. apply (Hlast (S i)); [lia | exact Hi].
    + apply IH; [exact Hlen | exact Hj |].
      intros j' Hlt. apply (Hlast (S j')). lia.
Qed.

Lemma keys_dict_set (k : string) (v : pyval) (d : dict) :
  keys (dict_set k v d)
    = if existsb (String.eqb k) (keys d) then keys d else (keys d ++ [k])%list.
Proof.
  induction d as [|[k0 v0] r IH]; simpl; [reflexivity|].
  destruct (String.eqb k k0) eqn:Hk; simpl; [reflexivity|].
  unfold keys in *. rewrite IH.
  now destruct (existsb (String.eqb k) (map fst r)).
Qed.

Lemma filter_filter {A : Type} (p q : A -> bool) (l : list A) :
  filter p (filter q l) = filter (fun x => p x && q x) l.
Proof.
  induction l as [|x l IH]; simpl; [reflexivity|].
  destruct (q x); simpl.
  - rewrite andb_true_r. destruct (p x); now rewrite IH.
  - now rewrite andb_false_r.
Qed.

Lemma keys_fold (ps : list (string * pyval)) (d : dict) :
  keys (fold_left (fun d p => dict_set (fst p) (snd p) d) ps d)
    = (keys d
       ++ filter (fun y => negb (existsb (String.eqb y) (keys d)))
            (first_seen (map fst ps)))%list.
Proof.
  revert d. induction ps as [|[k v] ps IH]; intros d; simpl.
  - now rewrite app_nil_r.
  - rewrite IH, keys_dict_set.
    destruct (existsb (String.eqb k) (keys d)) eqn:Hk; simpl.
    + f_equal. rewrite filter_filter. apply filter_ext. intros y.
      destruct (String.eqb y k) eqn:Hy; simpl; [|now rewrite andb_true_r].
      apply String.eqb_eq in Hy. subst y. now rewrite Hk.
    + rewrite <- app_assoc. simpl. f_equal. f_equal.
      rewrite filter_filter. apply filter_ext. intros y.
      rewrite existsb_app. simpl. rewrite orb_false_r, negb_orb.
      reflexivity.
Qed.

Lemma keys_dict_of_pairs (ps : list (string * pyval)) :
  keys (dict_of_pairs ps) = first_seen (map fst ps).
Proof.
  unfold dict_of_pairs. rewrite keys_fold. simpl.
  induction (first_seen (map fst ps)) as [|x l IH]; simpl; congruence.
Qed.

Lemma map_fst_zip (names : list string) (row : list pyval) :
  length row = length names -> map fst (zip names row) = names.
Proof.
  revert row. induction names as [|n ns IH]; intros [|v vs] H; simpl in *;
    try discriminate; [reflexivity|].
  f_equal. apply IH. now injection H.
Qed.

Lemma last_occurrence (x : string) (l : list string) :
  In x l ->
  exists j, nth_error l j = Some x
            /\ forall j', j < j' -> nth_error l j' <> Some x.
Proof.
  induction l as [|a r IH]; intros Hin; [destruct Hin|].
  destruct (in_dec string_dec x r) as [Hr|Hr].
  - destruct (IH Hr) as [j [Hj Hlast]]. exists (S j). split; [exact Hj|].
    intros [|j'] Hlt; [lia|]. simpl. apply Hlast. lia.
  - destruct Hin as [->|Hin]; [|contradiction].
    exists 0. split; [reflexivity|].
    intros [|j'] Hlt; [lia|]. simpl. intros H. apply Hr.
    eapply nth_error_In. exact H.
Qed.

(** C9. For a statement classified as a read (the store raising no error),
    [fetchall] is called once and every fetched row becomes one record, in
    order: as many records as rows.  With rows as wide as the result
    description, the keys of a record are the column names in the order of
    their first occurrence, and every column name is mapped to the value
    the row holds in a column of that name: the last such column, which is
    the only one when the names are distinct. *)
Theorem select_rows_paired
  (E : Env) (query db_path : string) (w w1 w2 w3 : world E) (c : conn E)
  (cur : cursor) (names : list string) (rows : list (list pyval)) :
  begins_with_select query ->
  connect E db_path w = (Ok c, w1) ->
  execute E c query [] w1 = (Ok cur, w2) ->
  description cur = Some names ->
  fetchall E c w2 = (Ok rows, w3) ->
  Forall (fun row => length row = length names) rows ->
  exists records,
    run (execute_sql_query E query db_path) w
      = Outcome (Ok records) (close E c w3)
          [EConnect db_path; EExecute query []; EFetchall; EClose]
    /\ length records = length rows
    /\ forall i row,
        nth_error rows i = Some row ->
        exists record,
          nth_error records i = Some record
          /\ keys record = first_seen names
          /\ (forall j name,
                nth_error names j = Some name ->
                (forall j', j < j' -> nth_error names j' <> Some name) ->
                dict_get name record = nth_error row j)
          /\ (forall name,
                In name names ->
                exists j, nth_error names j = Some name
                          /\ dict_get name record = nth_error row j)
          /\ (NoDup names ->
              forall j name,
                nth_error names j = Some name ->
                dict_get name record = nth_error row j).
Proof.
  intros Hsel Hconn Hexec Hdesc Hfetch Hwidth.
  exists (map (fun row => dict_of_pairs (zip names row)) rows).
  split; [|split].
  - apply is_select_spec in Hsel.
    now apply execute_sql_query_read with (w1 := w1) (w2 := w2) (cur := cur).
  - apply length_map.
  - intros i row Hi. exists (dict_of_pairs (zip names row)).
    assert (Hlen : length row = length names).
    { rewrite Forall_forall in Hwidth. apply Hwidth.
      eapply nth_error_In. exact Hi. }
    assert (Hlast : forall j name,
               nth_error names j = Some name ->
               (forall j', j < j' -> nth_error names j' <> Some name) ->
               dict_get name (dict_of_pairs (zip names row)) = nth_error row j).
    { intros j name Hj Hl. unfold dict_of_pairs.
      now apply dict_get_zip. }
    split; [|split; [|split; [|split]]].
    + rewrite nth_error_map, Hi. reflexivity.
    + rewrite keys_dict_of_pairs, map_fst_zip; [reflexivity | exact Hlen].
    + exact Hlast.
    + intros name Hin. destruct (last_occurrence name names Hin) as [j [Hj Hl]].
      exists j. split; [exact Hj | now apply Hlast].
    + intros Hnd j name Hj. apply Hlast; [exact Hj|].
      intros j' Hlt Hj'. rewrite NoDup_nth_error in Hnd.
      assert (j = j'); [|lia].
      apply Hnd; [|congruence].
      apply nth_error_Some. congruence.
Qed.

Lemma select_rows_paired_witness :
  exists records,
    run (execute_sql_query Replay.env "SELECT id, name FROM t" "shop.db")
        (Replay.session
           [Replay.Connected;
            Replay.Executed (Cursor (Some ["id"; "name"]) (-1) PNone);
            Replay.Fetched [[PInt 1; PStr "Alice"]; [PInt 2; PStr "Bob"]]])
      = Outcome (Ok records) (Replay.session [])
          [EConnect "shop.db"; EExecute "SELECT id, name FROM t" [];
           EFetchall; EClose]
    /\ length records = 2.
Proof.
  assert (Hsel : begins_with_select "SELECT id, name FROM t").
  { exists "", "SELECT", " id, name FROM t". repeat split. }
  assert (Hwidth : Forall (fun row : list pyval => length row = length ["id"; "name"])
                     [[PInt 1; PStr "Alice"]; [PInt 2; PStr "Bob"]]).
  { repeat constructor. }
  destruct (select_rows_paired Replay.env "SELECT id, name FROM t" "shop.db"
              (Replay.session
                 [Replay.Connected;
                  Replay.Executed (Cursor (Some ["id"; "name"]) (-1) PNone);
                  Replay.Fetched [[PInt 1; PStr "Alice"]; [PInt 2; PStr "Bob"]]])
              _ _ _ tt _ ["id"; "name"]
              [[PInt 1; PStr "Alice"]; [PInt 2; PStr "Bob"]]
              Hsel eq_refl eq_refl eq_refl eq_refl Hwidth)
    as [records [Hrun [Hlen _]]].
  exists records. split; [exact Hrun | exact Hlen].
Defined.

(* ------------------------------------------------------------------ *)
(** ** A path that names no file yet *)

(** Once connected, a tool goes on to submit its statement. *)
Lemma guarded_connect_execute {E : Env} {A : Type} (p sql : string)
  (params : list pyval) (k : conn E -> cursor -> M E A) (f : exn -> A)
  (w w1 : world E) (c : conn E) :
  connect E p w = (Ok c, w1) ->
  (forall c cur, tidy (k c cur)) ->
  exists tl,
    calls
      (run (try_finally
              (try_except
                 (bind (sqlite3_connect p)
                    (fun c => bind (cursor_execute c sql params) (k c)))
                 (fun e => ret (f e)))
              finally_close) w)
      = EConnect p :: EExecute sql params :: tl.
Proof.
  intros Hconn Hk. unfold run, try_finally, try_except, bind.
  rewrite (connect_ok p (State w None []) c w1 Hconn).
  cbn beta iota zeta delta [st_world st_conn st_log app].
  unfold cursor_execute.
  destruct (execute E c sql params w1) as [[cur|e] w2] eqn:Hexec.
  - rewrite (driver_call_ok _ _ (State w1 (Some c) [EConnect p]) cur w2 Hexec).
    cbn beta iota zeta delta [st_world st_conn st_log app].
    destruct (tidy_grows (k c cur)
                (State w2 (Some c) [EConnect p; EExecute sql params])
                (Hk c cur)) as [l Hl].
    destruct (k c cur (State w2 (Some c) [EConnect p; EExecute sql params]))
      as [[a|e] s']; simpl in *; unfold finally_close;
      destruct (st_conn s'); simpl; rewrite Hl; simpl; eauto.
  - rewrite (driver_call_raise _ _ (State w1 (Some c) [EConnect p]) e w2 Hexec).
    simpl. eauto.
Qed.

Lemma memdb_transactional : Transactional MemDB.env MemDB.columns.
Proof.
  constructor.
  - intros p w r w' H path table. simpl in H. unfold MemDB.do_connect in H.
    destruct (MemDB.lookup p (MemDB.files w)) as [db|] eqn:Hl.
    + injection H as <- <-. reflexivity.
    + destruct (existsb (String.eqb p) (MemDB.no_create w)).
      * injection H as <- <-. reflexivity.
      * injection H as <- <-. unfold MemDB.columns. simpl.
        destruct (String.eqb path p) eqn:Hp; [|reflexivity].
        apply String.eqb_eq in Hp. subst path. now rewrite Hl.
  - intros c sql params w e w' H path table. simpl in H.
    unfold MemDB.do_execute in H.
    destruct (MemDB.session w) as [[p db]|]; [|now injection H as <- <-].
    destruct (String.eqb sql user_tables_sql); [discriminate H|].
    destruct (MemDB.parse_add_column sql) as [[t col]|];
      [|now injection H as <- <-].
    destruct (MemDB.lookup t db) as [cols|]; [|now injection H as <- <-].
    destruct (existsb (String.eqb col) cols);
      [now injection H as <- <- | discriminate H].
  - intros c w path table. reflexivity.
Qed.

Lemma memdb_creates_missing :
  CreatesMissing MemDB.env MemDB.user_tables MemDB.can_create MemDB.serves.
Proof.
  constructor.
  - intros p w Hn Hc.
    unfold MemDB.user_tables in Hn. unfold MemDB.can_create in Hc.
    destruct (MemDB.lookup p (MemDB.files w)) eqn:Hl; [discriminate Hn|].
    apply negb_true_iff in Hc.
    exists tt,
      (MemDB.Disk ((p, []) :: MemDB.files w) (MemDB.no_create w)
         (Some (p, [])) []).
    split; [|split].
    + simpl. unfold MemDB.do_connect. now rewrite Hl, Hc.
    + unfold MemDB.user_tables. simpl. now rewrite String.eqb_refl.
    + exists []. simpl. now rewrite String.eqb_refl.
  - intros c p w ts [db [Hs Hf]] Ht.
    unfold MemDB.user_tables in Ht. rewrite Hf in Ht. simpl in Ht.
    injection Ht as <-.
    simpl. unfold MemDB.do_execute, MemDB.do_fetchall. rewrite Hs.
    rewrite String.eqb_refl. simpl.
    eexists. eexists. eexists. split; [reflexivity|].
    rewrite map_map. reflexivity.
Qed.

(** C10. No tool looks at the path before it calls [sqlite3.connect] with
    it, and [sqlite3.connect] creates what is missing: a store without
    tables.  So for a path that names no file, in a directory where one can
    be created, no tool reports a failure to open the store:
    [list_tables] and [get_database_schema] both return the empty list,
    not an error result, after the connect, the catalog query, the fetch
    and the close, and each of the other tools, its preconditions passed,
    goes on to submit its statement. *)
Theorem missing_file_is_an_empty_store
  (E : Env) (user_tables : world E -> string -> option (list string))
  (can_create : world E -> string -> bool)
  (serves : world E -> conn E -> string -> Prop)
  (db_path : string) (w : world E) :
  CreatesMissing E user_tables can_create serves ->
  user_tables w db_path = None ->
  can_create w db_path = true ->
  (exists c w3,
     run (list_tables E db_path) w
       = Outcome (Ok []) (close E c w3)
           [EConnect db_path; EExecute user_tables_sql []; EFetchall; EClose])
  /\ (exists c w3,
        run (get_database_schema E db_path) w
          = Outcome (Ok []) (close E c w3)
              [EConnect db_path; EExecute user_tables_sql []; EFetchall;
               EClose])
  /\ (forall query,
        exists tl,
          calls (run (execute_sql_query E query db_path) w)
            = EConnect db_path :: EExecute query [] :: tl)
  /\ (forall table data,
        data <> [] ->
        exists tl,
          calls (run (insert_row E table data db_path) w)
            = EConnect db_path
                :: EExecute (insert_row_sql table data) (values data) :: tl)
  /\ (forall table data where_,
        data <> [] -> where_ <> [] ->
        exists tl,
          calls (run (update_rows E table data where_ db_path) w)
            = EConnect db_path
                :: EExecute (update_rows_sql table data where_)
                     (values data ++ values where_) :: tl)
  /\ (forall table where_,
        where_ <> [] ->
        exists tl,
          calls (run (delete_rows E table where_ db_path) w)
            = EConnect db_path
                :: EExecute (delete_rows_sql table where_) (values where_) :: tl)
  /\ (forall table column_name data_type,
        ~ white table -> ~ white column_name ->
        whitelisted data_type ->
        exists tl,
          calls (run (add_column E table column_name data_type db_path) w)
            = EConnect db_path
                :: EExecute (add_column_sql table column_name data_type) []
                :: tl).
Proof.
  intros Hlaw Hmissing Hcreate.
  destruct (connect_creates _ _ _ _ Hlaw db_path w Hmissing Hcreate)
    as [c [w1 [Hconn [Hnone Hserves]]]].
  destruct (catalog_lists _ _ _ _ Hlaw c db_path w1 [] Hserves Hnone)
    as [cur [w2 [w3 [Hexec Hfetch]]]].
  simpl in Hfetch.
  repeat apply conj.
  - exists c, w3.
    unfold list_tables. start_run. step. step. step. reflexivity.
  - exists c, w3.
    unfold get_database_schema. start_run. step. step. step. reflexivity.
  - intros query. unfold execute_sql_query.
    eapply guarded_connect_execute; [exact Hconn|]. intros c0 cur0. tidy.
  - intros table [|kv data] Hdata; [contradiction|]. unfold insert_row.
    eapply guarded_connect_execute; [exact Hconn|]. intros c0 cur0. tidy.
  - intros table [|kv data] [|kw where_] Hdata Hwhere; try contradiction.
    unfold update_rows. simpl orb. cbv iota.
    eapply guarded_connect_execute; [exact Hconn|]. intros c0 cur0. tidy.
  - intros table [|kw where_] Hwhere; [contradiction|].
    unfold delete_rows. simpl is_empty. cbv iota.
    eapply guarded_connect_execute; [exact Hconn|]. intros c0 cur0. tidy.
  - intros table column_name data_type Ht Hc Hw.
    apply strip_u_not_white in Ht, Hc. unfold add_column.
    destruct (PyStr.nonempty (PyStr.strip_u table)) eqn:Ht';
      [|now apply nonempty_false in Ht'].
    destruct (PyStr.nonempty (PyStr.strip_u column_name)) eqn:Hc';
      [|now apply nonempty_false in Hc'].
    apply upper_in_allowed_spec in Hw. rewrite Hw. simpl negb. cbv iota.
    eapply guarded_connect_execute; [exact Hconn|]. intros c0 cur0. tidy.
Qed.

Lemma missing_file_is_an_empty_store_witness :
  (exists c w3,
     run (list_tables MemDB.env "new.db") (MemDB.holding [])
       = Outcome (Ok []) (close MemDB.env c w3)
           [EConnect "new.db"; EExecute user_tables_sql []; EFetchall; EClose])
  /\ (exists c w3,
        run (get_database_schema MemDB.env "new.db") (MemDB.holding [])
          = Outcome (Ok []) (close MemDB.env c w3)
              [EConnect "new.db"; EExecute user_tables_sql []; EFetchall;
               EClose]).
Proof.
  pose proof (missing_file_is_an_empty_store MemDB.env MemDB.user_tables
                MemDB.can_create MemDB.serves "new.db" (MemDB.holding [])
                memdb_creates_missing eq_refl eq_refl) as H.
  exact (conj (proj1 H) (proj1 (proj2 H))).
Defined.

(* ------------------------------------------------------------------ *)
(** ** add_column on a column that exists *)

(** A table may hold the column and the call still return another failure:
    here the declared type is not whitelisted, so the type check answers
    before the store is asked. *)
Lemma duplicate_column_bad_type_counterexample :
  ~ (forall (E : Env) (table column_name data_type db_path : string)
            (w w1 w2 : world E) (c : conn E),
       connect E db_path w = (Ok c, w1) ->
       execute E c (add_column_sql table column_name data_type) [] w1
         = (Raise (Exn OperationalError
                     ("duplicate column name: " ++ column_name)), w2) ->
       returned (run (add_column E table column_name data_type db_path) w)
         = Ok (error_result (duplicate_message table column_name))).
Proof.
  intros H.
  specialize (H Replay.env "t" "name" "VARCHAR" "shop.db"
                (Replay.session
                   [Replay.Connected;
                    Replay.ExecuteFails
                      (Exn OperationalError "duplicate column name: name")])
                _ _ tt eq_refl eq_refl).
  vm_compute in H. discriminate H.
Qed.

(** C8, amended.  With table and column names that are not made of white
    space only and a whitelisted type, when the store answers the ALTER
    TABLE statement with an OperationalError whose message mentions a
    duplicate column name, [add_column] returns the error result that names
    the column as already existing.  It calls the driver three times
    (connect, the statement that failed, close) and never commits.  With a
    transactional driver, one whose connect, failed statements and close
    leave the columns of every table as they were, the columns of every
    table of every store, and so their number, are after the call what they
    were before it. *)
Theorem add_column_duplicate
  (E : Env) (columns : world E -> string -> string -> option (list string))
  (table column_name data_type db_path : string)
  (w w1 w2 : world E) (c : conn E) (e : exn) :
  Transactional E columns ->
  ~ white table ->
  ~ white column_name ->
  whitelisted data_type ->
  connect E db_path w = (Ok c, w1) ->
  execute E c (add_column_sql table column_name data_type) [] w1
    = (Raise e, w2) ->
  exn_cls e = OperationalError ->
  PyStr.contains "duplicate column name" (PyStr.lower (exn_str e)) = true ->
  run (add_column E table column_name data_type db_path) w
    = Outcome (Ok (error_result (duplicate_message table column_name)))
        (close E c w2)
        [EConnect db_path;
         EExecute (add_column_sql table column_name data_type) [];
         ERaise e; EClose]
  /\ ~ In ECommit
         (calls (run (add_column E table column_name data_type db_path) w))
  /\ forall path t : string,
      columns
        (final_world (run (add_column E table column_name data_type db_path) w))
        path t
        = columns w path t
      /\ option_map (@length string)
           (columns
              (final_world
                 (run (add_column E table column_name data_type db_path) w))
              path t)
         = option_map (@length string) (columns w path t).
Proof.
  intros HT Ht Hc Hw Hconn Hexec Hcls Hmsg.
  apply strip_u_not_white in Ht, Hc.
  assert (Hrun :
    run (add_column E table column_name data_type db_path) w
      = Outcome (Ok (error_result (duplicate_message table column_name)))
          (close E c w2)
          [EConnect db_path;
           EExecute (add_column_sql table column_name data_type) [];
           ERaise e; EClose]).
  { unfold add_column.
    destruct (PyStr.nonempty (PyStr.strip_u table)) eqn:Ht';
      [|now apply nonempty_false in Ht'].
    destruct (PyStr.nonempty (PyStr.strip_u column_name)) eqn:Hc';
      [|now apply nonempty_false in Hc'].
    apply upper_in_allowed_spec in Hw. rewrite Hw. simpl negb. cbv iota.
    start_run. step. step.
    unfold add_column_error. rewrite Hcls, Hmsg. reflexivity. }
  rewrite Hrun. split; [reflexivity|]. split.
  - simpl. intros [H|[H|[H|[H|[]]]]]; discriminate H.
  - intros path t. simpl final_world.
    assert (Hsame : columns (close E c w2) path t = columns w path t).
    { rewrite (close_keeps E columns HT).
      rewrite (failed_statement_keeps E columns HT _ _ _ _ _ _ Hexec).
      exact (connect_keeps E columns HT _ _ _ _ Hconn path t). }
    split; [exact Hsame | now rewrite Hsame].
Qed.

Lemma add_column_duplicate_witness :
  let w := MemDB.holding [("shop.db", [("t", ["id"; "name"])])] in
  let r := run (add_column MemDB.env "t" "name" "text" "shop.db") w in
  returned r
    = Ok (error_result "Column 'name' already exists in table 't'")
  /\ calls r
      = [EConnect "shop.db"; EExecute "ALTER TABLE t ADD COLUMN name text" [];
         ERaise (Exn OperationalError "duplicate column name: name"); EClose]
  /\ MemDB.columns w "shop.db" "t" = Some ["id"; "name"]
  /\ MemDB.columns (final_world r) "shop.db" "t" = Some ["id"; "name"].
Proof.
  assert (Hw : whitelisted "text").
  { exists "TEXT". split; [simpl; tauto | reflexivity]. }
  assert (Ht : ~ white "t")
    by (intros H; apply strip_u_white in H; vm_compute in H; discriminate H).
  assert (Hc : ~ white "name")
    by (intros H; apply strip_u_white in H; vm_compute in H; discriminate H).
  pose proof
    (add_column_duplicate MemDB.env MemDB.columns "t" "name" "text" "shop.db"
       (MemDB.holding [("shop.db", [("t", ["id"; "name"])])])
       _ _ tt _ memdb_transactional Ht Hc Hw
       eq_refl eq_refl eq_refl eq_refl) as [Hrun [_ Hcols]].
  cbv zeta. rewrite Hrun.
  split; [reflexivity|]. split; [reflexivity|]. split; [reflexivity|].
  reflexivity.
Defined.

(* ------------------------------------------------------------------ *)
(** ** Identifiers and values in the generated statements *)

(** The calls of a tool that connects, submits one statement and commits. *)
Lemma write_tool_statement {E : Env} {A : Type} (p sql : string)
  (params : list pyval) (g : cursor -> A) (f : exn -> A) (w : world E)
  (sql' : string) (params' : list pyval) :
  In (EExecute sql' params')
     (calls
        (run (try_finally
                (try_except
                   (bind (sqlite3_connect p)
                      (fun c =>
                         bind (cursor_execute c sql params)
                           (fun cur =>
                              bind (conn_commit c) (fun _ => ret (g cur)))))
                   (fun e => ret (f e)))
                finally_close) w)) ->
  sql' = sql /\ params' = params.
Proof.
  unfold run, try_finally, try_except, bind, cursor_execute, conn_commit,
    finally_close, ret, sqlite3_connect, driver_call.
  simpl.
  destruct (connect E p w) as [[c|e] w1]; simpl.
  - destruct (execute E c sql params w1) as [[cur|e] w2]; simpl.
    + destruct (commit E c w2) as [[u|e] w3]; simpl;
        intros H; repeat (destruct H as [H|H]; [inversion H; auto|]);
        destruct H.
    + intros H; repeat (destruct H as [H|H]; [inversion H; auto|]);
        destruct H.
  - intros H; repeat (destruct H as [H|H]; [inversion H; auto|]);
      destruct H.
Qed.

(** Table and column names go into the text whatever they are: a call with
    an empty table name and a column name of two words is submitted. *)
Lemma invalid_identifier_counterexample :
  ~ (forall (E : Env) (table : string) (data : dict) (db_path : string)
            (w : world E) (sql : string) (params : list pyval),
       In (EExecute sql params)
          (calls (run (insert_row E table data db_path) w)) ->
       valid_identifier table = true
       /\ forallb valid_identifier (keys data) = true).
Proof.
  intros H.
  destruct (H Replay.env "" [("first name", PStr "Ann")] "shop.db"
              (Replay.session
                 [Replay.Connected; Replay.Executed (Cursor None 1 (PInt 1));
                  Replay.Committed])
              "INSERT INTO  (first name) VALUES (?)" [PStr "Ann"])
    as [Htable _].
  - vm_compute. right. left. reflexivity.
  - discriminate Htable.
Qed.

(** C1, amended.  The tools substitute the table name and the column names
    into the text as they are given.  Once connected, [insert_row],
    [update_rows] and [delete_rows] with non-empty maps submit the
    statement built from any table name and any keys.  [add_column] turns
    down a table or column name only when it is empty or made of white
    space only, before any driver call; with other names and a whitelisted
    type it submits the ALTER TABLE statement built from them. *)
Theorem identifiers_substituted_as_given
  (E : Env) (table db_path : string) (w w1 : world E) (c : conn E) :
  connect E db_path w = (Ok c, w1) ->
  (forall data,
     data <> [] ->
     exists tl,
       calls (run (insert_row E table data db_path) w)
         = EConnect db_path
             :: EExecute
                  ("INSERT INTO " ++ table ++ " ("
                     ++ PyStr.join ", " (keys data) ++ ") VALUES ("
                     ++ PyStr.join ", " (map (fun _ => "?") (keys data)) ++ ")")
                  (values data) :: tl)
  /\ (forall data where_,
        data <> [] -> where_ <> [] ->
        exists tl,
          calls (run (update_rows E table data where_ db_path) w)
            = EConnect db_path
                :: EExecute
                     ("UPDATE " ++ table ++ " SET "
                        ++ PyStr.join ", "
                             (map (fun col => col ++ " = ?") (keys data))
                        ++ " WHERE "
                        ++ PyStr.join " AND "
                             (map (fun col => col ++ " = ?") (keys where_)))
                     (values data ++ values where_) :: tl)
  /\ (forall where_,
        where_ <> [] ->
        exists tl,
          calls (run (delete_rows E table where_ db_path) w)
            = EConnect db_path
                :: EExecute
                     ("DELETE FROM " ++ table ++ " WHERE "
                        ++ PyStr.join " AND "
                             (map (fun col => col ++ " = ?") (keys where_)))
                     (values where_) :: tl)
  /\ (forall column_name data_type,
        (white table \/ white column_name ->
         exists msg,
           run (add_column E table column_name data_type db_path) w
             = Outcome (Ok (error_result msg)) w [])
        /\ (~ white table -> ~ white column_name ->
            whitelisted data_type ->
            exists tl,
              calls (run (add_column E table column_name data_type db_path) w)
                = EConnect db_path
                    :: EExecute
                         ("ALTER TABLE " ++ table ++ " ADD COLUMN "
                            ++ column_name ++ " " ++ data_type) []
                    :: tl)).
Proof.
  intros Hconn. repeat apply conj.
  - intros [|kv data] Hdata; [contradiction|]. unfold insert_row.
    eapply guarded_connect_execute; [exact Hconn|]. intros c0 cur. tidy.
  - intros [|kv data] [|kw where_] Hdata Hwhere; try contradiction.
    unfold update_rows. simpl orb. cbv iota.
    eapply guarded_connect_execute; [exact Hconn|]. intros c0 cur. tidy.
  - intros [|kw where_] Hwhere; [contradiction|].
    unfold delete_rows. simpl is_empty. cbv iota.
    eapply guarded_connect_execute; [exact Hconn|]. intros c0 cur. tidy.
  - intros column_name data_type. split.
    + intros H. unfold add_column.
      destruct (PyStr.nonempty (PyStr.strip_u table)) eqn:Ht; simpl;
        [|eexists; reflexivity].
      destruct (PyStr.nonempty (PyStr.strip_u column_name)) eqn:Hc; simpl;
        [|eexists; reflexivity].
      exfalso. destruct H as [H|H]; apply strip_u_white in H.
      * rewrite H in Ht. discriminate Ht.
      * rewrite H in Hc. discriminate Hc.
    + intros Ht Hc Hw. unfold add_column.
      destruct (PyStr.nonempty (PyStr.strip_u table)) eqn:Ht';
        [|apply nonempty_false in Ht'; now apply strip_u_white in Ht'].
      destruct (PyStr.nonempty (PyStr.strip_u column_name)) eqn:Hc';
        [|apply nonempty_false in Hc'; now apply strip_u_white in Hc'].
      apply upper_in_allowed_spec in Hw. rewrite Hw. simpl negb. cbv iota.
      eapply guarded_connect_execute; [exact Hconn|]. intros c0 cur. tidy.
Qed.

Lemma identifiers_substituted_as_given_witness :
  exists tl,
    calls (run (insert_row Replay.env "t; DROP TABLE t"
                  [("first name", PStr "Ann")] "shop.db")
             (Replay.session [Replay.Connected]))
      = EConnect "shop.db"
          :: EExecute "INSERT INTO t; DROP TABLE t (first name) VALUES (?)"
               [PStr "Ann"] :: tl.
Proof.
  assert (Hdata : [("first name", PStr "Ann")] <> ([] : dict))
    by discriminate.
  exact (proj1 (identifiers_substituted_as_given Replay.env "t; DROP TABLE t"
                  "shop.db" (Replay.session [Replay.Connected]) _ tt eq_refl)
           [("first name", PStr "Ann")] Hdata).
Defined.

(** The order of the keys is part of the text: two records with the same
    set of keys can give two texts. *)
Lemma same_key_set_counterexample :
  ~ (forall (table : string) (d1 d2 : dict),
       same_key_set d1 d2 ->
       insert_row_sql table d1 = insert_row_sql table d2).
Proof.
  intros H.
  specialize (H "t" [("a", PInt 1); ("b", PInt 2)]
                [("b", PInt 3); ("a", PInt 4)]).
  assert (Hset : same_key_set [("a", PInt 1); ("b", PInt 2)]
                   [("b", PInt 3); ("a", PInt 4)]).
  { intros k. simpl. tauto. }
  specialize (H Hset). vm_compute in H. discriminate H.
Qed.

(** C2, amended.  The text of a statement is a function of the table name
    and of the keys in their order: two calls of [insert_row],
    [update_rows] or [delete_rows] with the same table and the same
    sequences of keys submit the same text, whatever the values, the
    stores and the paths; the values are passed as the parameter list of
    the call, in the order of the keys. *)
Theorem sql_text_independent_of_values
  (E1 E2 : Env) (table : string) (p1 p2 : string)
  (w1 : world E1) (w2 : world E2) :
  (forall d1 d2 sql1 params1 sql2 params2,
     keys d1 = keys d2 ->
     In (EExecute sql1 params1) (calls (run (insert_row E1 table d1 p1) w1)) ->
     In (EExecute sql2 params2) (calls (run (insert_row E2 table d2 p2) w2)) ->
     sql1 = sql2 /\ params1 = values d1 /\ params2 = values d2)
  /\ (forall d1 d2 c1 c2 sql1 params1 sql2 params2,
        keys d1 = keys d2 -> keys c1 = keys c2 ->
        In (EExecute sql1 params1)
           (calls (run (update_rows E1 table d1 c1 p1) w1)) ->
        In (EExecute sql2 params2)
           (calls (run (update_rows E2 table d2 c2 p2) w2)) ->
        sql1 = sql2
        /\ params1 = (values d1 ++ values c1)%list
        /\ params2 = (values d2 ++ values c2)%list)
  /\ (forall c1 c2 sql1 params1 sql2 params2,
        keys c1 = keys c2 ->
        In (EExecute sql1 params1) (calls (run (delete_rows E1 table c1 p1) w1)) ->
        In (EExecute sql2 params2) (calls (run (delete_rows E2 table c2 p2) w2)) ->
        sql1 = sql2 /\ params1 = values c1 /\ params2 = values c2).
Proof.
  repeat apply conj.
  - intros d1 d2 sql1 params1 sql2 params2 Hk H1 H2.
    destruct d1 as [|kv1 d1]; [destruct H1|].
    destruct d2 as [|kv2 d2]; [destruct H2|].
    apply write_tool_statement in H1. apply write_tool_statement in H2.
    destruct H1 as [-> ->], H2 as [-> ->].
    unfold insert_row_sql. rewrite Hk. auto.
  - intros d1 d2 c1 c2 sql1 params1 sql2 params2 Hk Hc H1 H2.
    unfold update_rows in H1, H2.
    destruct (is_empty d1 || is_empty c1); [destruct H1|].
    destruct (is_empty d2 || is_empty c2); [destruct H2|].
    apply write_tool_statement in H1. apply write_tool_statement in H2.
    destruct H1 as [-> ->], H2 as [-> ->].
    unfold update_rows_sql, eq_clauses. rewrite Hk, Hc. auto.
  - intros c1 c2 sql1 params1 sql2 params2 Hc H1 H2.
    unfold delete_rows in H1, H2.
    destruct (is_empty c1); [destruct H1|].
    destruct (is_empty c2); [destruct H2|].
    apply write_tool_statement in H1. apply write_tool_statement in H2.
    destruct H1 as [-> ->], H2 as [-> ->].
    unfold delete_rows_sql, eq_clauses. rewrite Hc. auto.
Qed.

Lemma sql_text_independent_of_values_witness :
  "INSERT INTO t (name, age) VALUES (?, ?)"
    = "INSERT INTO t (name, age) VALUES (?, ?)"
  /\ [PStr "Ann"; PInt 30] = values [("name", PStr "Ann"); ("age", PInt 30)]
  /\ [PStr "Bob"; PNone] = values [("name", PStr "Bob"); ("age", PNone)].
Proof.
  apply (proj1 (sql_text_independent_of_values Replay.env Replay.env "t"
                  "a.db" "b.db"
                  (Replay.session
                     [Replay.Connected; Replay.Executed (Cursor None 1 (PInt 1));
                      Replay.Committed])
                  (Replay.session
                     [Replay.Connected;
                      Replay.ExecuteFails
                        (Exn OtherException "NOT NULL constraint failed: t.age")]))
           [("name", PStr "Ann"); ("age", PInt 30)]
           [("name", PStr "Bob"); ("age", PNone)]).
  - reflexivity.
  - vm_compute. right. left. reflexivity.
  - vm_compute. right. left. reflexivity.
Defined.

Lemma no_uncaught_fault_witness :
  exists r,
    returned
      (run (list_tables Replay.env "shop.db")
           (Replay.session
              [Replay.ConnectFails
                 (Exn OperationalError "unable to open database file")]))
      = Ok r
    /\ r = [PStr "error: unable to open database file"].
Proof.
  destruct (proj1 (proj2 (proj2
              (no_uncaught_fault Replay.env
                 (Replay.session
                    [Replay.ConnectFails
                       (Exn OperationalError "unable to open database file")]))))
              "shop.db") as [r [Hr He]].
  exists r. split; [exact Hr|].
  apply (He (Exn OperationalError "unable to open database file")).
  vm_compute. right. left. reflexivity.
Defined.

(* ------------------------------------------------------------------ *)
(** ** The model on concrete inputs *)

Example strip_example :
  PyStr.strip (String "009" "  select 1 " ++ String "010" "") = "select 1".
Proof. reflexivity. Qed.

Example is_select_examples :
  is_select "  SeLeCt 1" = true
  /\ is_select "WITH x AS (SELECT 1) SELECT * FROM x" = false
  /\ is_select "PRAGMA table_info(t)" = false.
Proof. repeat split. Qed.

Example statement_examples :
  insert_row_sql "t" [("name", PStr "Alice"); ("age", PInt 30)]
    = "INSERT INTO t (name, age) VALUES (?, ?)"
  /\ update_rows_sql "t" [("name", PStr "Bob")] [("id", PInt 1)]
    = "UPDATE t SET name = ? WHERE id = ?"
  /\ delete_rows_sql "t" [("id", PInt 2); ("name", PStr "Bob")]
    = "DELETE FROM t WHERE id = ? AND name = ?"
  /\ add_column_sql "t" "age" "INTEGER" = "ALTER TABLE t ADD COLUMN age INTEGER".
Proof. repeat split. Qed.

(** [str.strip] and [str.upper] beyond ASCII, as [add_column] uses them: a
    no-break space (U+00A0) and an em space (U+2003) are stripped, and the
    dotless i (U+0131) has the upper case [I]; the upper case of a letter
    such as [e] with an acute accent (U+00E9) is no ASCII text. *)
Example strip_u_examples :
  PyStr.strip_u (PyStr.of_bytes [194; 160]%N) = ""
  /\ PyStr.strip_u (PyStr.of_bytes [226; 128; 131]%N ++ "t " ++ PyStr.of_bytes [194; 160]%N)
     = "t"
  /\ PyStr.strip_u (" a" ++ PyStr.of_bytes [194; 160]%N ++ "b ")
     = "a" ++ PyStr.of_bytes [194; 160]%N ++ "b".
Proof. repeat split. Qed.

Example upper_ascii_examples :
  PyStr.upper_ascii (PyStr.of_bytes [196; 177]%N ++ "nteger") = Some "INTEGER"
  /\ PyStr.upper_ascii "Text" = Some "TEXT"
  /\ PyStr.upper_ascii (PyStr.of_bytes [195; 169]%N) = None.
Proof. repeat split. Qed.

(** A table name that is one no-break space is refused before any call; a
    type written with a dotless i passes the whitelist and is written into
    the statement as given. *)
Example add_column_beyond_ascii :
  run (add_column Replay.env (PyStr.of_bytes [194; 160]%N) "age" "INTEGER"
         "shop.db")
      (Replay.session [])
    = Outcome (Ok (error_result "Table name cannot be empty"))
        (Replay.session []) []
  /\ calls
       (run (add_column Replay.env "t" "age"
               (PyStr.of_bytes [196; 177]%N ++ "nteger") "shop.db")
          (Replay.session
             [Replay.Connected; Replay.Executed (Cursor None (-1) PNone);
              Replay.Committed]))
     = [EConnect "shop.db";
        EExecute ("ALTER TABLE t ADD COLUMN age "
                    ++ PyStr.of_bytes [196; 177]%N ++ "nteger") [];
        ECommit; EClose].
Proof. split; reflexivity. Qed.

(** Placeholders are read as the store reads them: a question mark in a
    comment or in quoted text is none. *)
Example sql_parameters_examples :
  sql_parameters "DELETE FROM t WHERE id = ?" = Some 1
  /\ sql_parameters "DELETE FROM t -- WHERE id = ?" = Some 0
  /\ sql_parameters "SELECT '?' , ? /* ? */ FROM t" = Some 1
  /\ sql_parameters "SELECT ?1" = None.
Proof. repeat split. Qed.

(** The store in memory: a column is added once, and the second attempt is
    answered as a duplicate. *)
Example memdb_add_column_twice :
  let w := MemDB.holding [("shop.db", [("t", ["id"])])] in
  let r1 := run (add_column MemDB.env "t" "age" "INTEGER" "shop.db") w in
  let r2 :=
    run (add_column MemDB.env "t" "age" "INTEGER" "shop.db") (final_world r1) in
  returned r1
    = Ok [[("success", PBool true);
           ("message", PStr "Column 'age' (INTEGER) added to table 't'")]]
  /\ MemDB.columns (final_world r1) "shop.db" "t" = Some ["id"; "age"]
  /\ returned r2
     = Ok (error_result "Column 'age' already exists in table 't'")
  /\ MemDB.columns (final_world r2) "shop.db" "t" = Some ["id"; "age"].
Proof. repeat split. Qed.

(** Two result columns of one name: the record keeps the first position and
    the last value. *)
Example duplicate_column_names_example :
  dict_of_pairs (zip ["id"; "name"; "id"] [PInt 1; PStr "Ann"; PInt 7])
    = [("id", PInt 7); ("name", PStr "Ann")].
Proof. reflexivity. Qed.

(** The scenario of a table [t(id INTEGER PRIMARY KEY, name TEXT)], with the
    replies sqlite3 gives. *)
Example scenario_insert :
  run (insert_row Replay.env "t" [("name", PStr "Alice")] "shop.db")
      (Replay.session
         [Replay.Connected; Replay.Executed (Cursor None 1 (PInt 1));
          Replay.Committed])
    = Outcome (Ok [[("inserted_id", PInt 1)]]) (Replay.Tape [] 1 : world Replay.env)
        [EConnect "shop.db";
         EExecute "INSERT INTO t (name) VALUES (?)" [PStr "Alice"];
         ECommit; EClose].
Proof. reflexivity. Qed.

Example scenario_schema :
  returned
    (run (get_database_schema Replay.env "shop.db")
       (Replay.session
          [Replay.Connected;
           Replay.Executed (Cursor (Some ["name"]) (-1) PNone);
           Replay.Fetched [[PStr "t"]];
           Replay.Executed
             (Cursor (Some ["cid"; "name"; "type"; "notnull"; "dflt_value"; "pk"])
                (-1) PNone);
           Replay.Fetched
             [[PInt 0; PStr "id"; PStr "INTEGER"; PInt 0; PNone; PInt 1];
              [PInt 1; PStr "age"; PStr "INTEGER"; PInt 0; PNone; PInt 0]]]))
    = Ok [TableInfo (PStr "t")
            [ColumnDef (PStr "id") (PStr "INTEGER") false PNone true;
             ColumnDef (PStr "age") (PStr "INTEGER") false PNone false]].
Proof. reflexivity. Qed.

(* ------------------------------------------------------------------ *)
(** ** The connection of a call *)

Section Emits.

Context {E : Env}.
Variable P : event -> Prop.
Hypothesis P_raise : forall e, P (ERaise e).

Lemma emits_ret {A : Type} (a : A) : emits P (ret (E:=E) a).
Proof.
  intros s. exists []. simpl. rewrite app_nil_r. auto.
Qed.

Lemma emits_raise {A : Type} (e : exn) : emits P (raise (E:=E) (A:=A) e).
Proof.
  intros s. exists [ERaise e]. simpl. auto.
Qed.

Lemma emits_bind {A B : Type} (m : M E A) (k : A -> M E B) :
  emits P m -> (forall a, emits P (k a)) -> emits P (bind m k).
Proof.
  intros Hm Hk s. unfold bind.
  destruct (Hm s) as [l [Hl [Hc HP]]].
  destruct (m s) as [[a|e] s']; simpl in *.
  - destruct (Hk a s') as [l' [Hl' [Hc' HP']]].
    exists (l ++ l')%list. rewrite Hl', Hc', Hl, Hc, app_assoc.
    repeat split. now apply Forall_app.
  - exists l. auto.
Qed.

Lemma emits_driver_call {A : Type} (ev : event)
  (f : world E -> result A * world E) :
  P ev -> emits P (driver_call ev f).
Proof.
  intros Hev s. unfold driver_call.
  destruct (f (st_world s)) as [[a|e] w1]; simpl.
  - exists [ev]. auto.
  - exists [ev; ERaise e]. auto.
Qed.

Lemma emits_item (row : list pyval) (i : nat) : emits P (item (E:=E) row i).
Proof.
  unfold item. destruct (nth_error row i); [apply emits_ret | apply emits_raise].
Qed.

Lemma emits_column_names_of (cur : cursor) :
  emits P (column_names_of (E:=E) cur).
Proof.
  unfold column_names_of.
  destruct (description cur); [apply emits_ret | apply emits_raise].
Qed.

Lemma emits_for_each {A B : Type} (f : A -> M E B) (l : list A) :
  (forall a, emits P (f a)) -> emits P (for_each f l).
Proof.
  intros Hf. induction l as [|x r IH]; simpl.
  - apply emits_ret.
  - apply emits_bind; [apply Hf|]. intros y.
    apply emits_bind; [apply IH|]. intros ys. apply emits_ret.
Qed.

(** A connect that raised is followed by nothing; a connection obtained is
    closed once, after everything else. *)
Lemma guarded_session {A : Type} (p : string) (k : conn E -> M E A)
  (f : exn -> A) (w : world E) :
  (forall c, emits P (k c)) ->
  (exists e,
     calls
       (run (try_finally
               (try_except (bind (sqlite3_connect p) k) (fun e => ret (f e)))
               finally_close) w) = [EConnect p; ERaise e])
  \/ (exists mid,
        calls
          (run (try_finally
                  (try_except (bind (sqlite3_connect p) k)
                     (fun e => ret (f e)))
                  finally_close) w)
          = (EConnect p :: mid ++ [EClose])%list
        /\ Forall P mid).
Proof.
  intros Hk. unfold run, try_finally, try_except, bind.
  destruct (connect E p w) as [[c|e] w1] eqn:Hc.
  - right. rewrite (connect_ok p (State w None []) c w1 Hc). simpl.
    destruct (Hk c (State w1 (Some c) [EConnect p])) as [l [Hl [Hconn HP]]].
    destruct (k c (State w1 (Some c) [EConnect p])) as [[a|e] s'];
      simpl in *; unfold finally_close; rewrite Hconn; simpl; rewrite Hl;
      exists l; auto.
  - left. rewrite (connect_raise p (State w None []) e w1 Hc). simpl. eauto.
Qed.

End Emits.

Ltac event_ok :=
  first
    [ exact I
    | intros ?; exact I
    | simpl; split;
      [ reflexivity
      | first [reflexivity | left; reflexivity | right; eexists; reflexivity] ] ].

Ltac emits :=
  repeat first
    [ apply emits_ret
    | apply emits_raise; event_ok
    | apply emits_item; event_ok
    | apply emits_column_names_of; event_ok
    | unfold cursor_execute, cursor_fetchall, conn_commit;
      apply emits_driver_call; event_ok
    | apply emits_bind; [|intros ?]
    | apply emits_for_each; intros ?
    | match goal with
      | |- emits _ (if ?b then _ else _) => destruct b
      end ].

Lemma session_of_guarded {E : Env} {A : Type} (P : event -> Prop)
  (p : string) (k : conn E -> M E A) (f : exn -> A) (w : world E) :
  (forall ev, P ev -> inner_call ev) ->
  (forall e, P (ERaise e)) ->
  (forall c, emits P (k c)) ->
  session_log p
    (calls
       (run (try_finally
               (try_except (bind (sqlite3_connect p) k) (fun e => ret (f e)))
               finally_close) w)).
Proof.
  intros Himp Hr Hk.
  destruct (guarded_session P p k f w Hk) as [[e He] | [mid [Hm HP]]].
  - right. left. eauto.
  - right. right. exists mid. split; [exact Hm|].
    eapply Forall_impl; [exact Himp | exact HP].
Qed.

(** X1.  Every tool opens at most one connection, with the path it was given,
    and closes it exactly once, as its last driver call, on every way out;
    when the connect itself raises there is nothing to close and nothing
    else is called. *)
Theorem connection_discipline (E : Env) (db_path : string) (w : world E) :
  (forall query,
     session_log db_path (calls (run (execute_sql_query E query db_path) w)))
  /\ session_log db_path (calls (run (get_database_schema E db_path) w))
  /\ session_log db_path (calls (run (list_tables E db_path) w))
  /\ (forall table data,
        session_log db_path (calls (run (insert_row E table data db_path) w)))
  /\ (forall table data where_,
        session_log db_path
          (calls (run (update_rows E table data where_ db_path) w)))
  /\ (forall table where_,
        session_log db_path
          (calls (run (delete_rows E table where_ db_path) w)))
  /\ (forall table column_name data_type,
        session_log db_path
          (calls (run (add_column E table column_name data_type db_path) w))).
Proof.
  repeat apply conj.
  - intros query. apply session_of_guarded with (P := inner_call); auto;
      [intros e; exact I|]. intros c. emits.
  - apply session_of_guarded with (P := inner_call); auto;
      [intros e; exact I|]. intros c. emits.
  - apply session_of_guarded with (P := inner_call); auto;
      [intros e; exact I|]. intros c. emits.
  - intros table [|kv data]; [left; reflexivity|].
    apply session_of_guarded with (P := inner_call); auto;
      [intros e; exact I|]. intros c. emits.
  - intros table data where_. unfold update_rows.
    destruct (is_empty data || is_empty where_); [left; reflexivity|].
    apply session_of_guarded with (P := inner_call); auto;
      [intros e; exact I|]. intros c. emits.
  - intros table where_. unfold delete_rows.
    destruct (is_empty where_); [left; reflexivity|].
    apply session_of_guarded with (P := inner_call); auto;
      [intros e; exact I|]. intros c. emits.
  - intros table column_name data_type. unfold add_column.
    destruct (negb (PyStr.nonempty (PyStr.strip_u table)));
      [left; reflexivity|].
    destruct (negb (PyStr.nonempty (PyStr.strip_u column_name)));
      [left; reflexivity|].
    destruct (negb (upper_in_allowed data_type));
      [left; reflexivity|].
    apply session_of_guarded with (P := inner_call); auto;
      [intros e; exact I|]. intros c. emits.
Qed.

Lemma guarded_calls_satisfy {E : Env} {A : Type} (P : event -> Prop)
  (p : string) (k : conn E -> M E A) (f : exn -> A) (w : world E)
  (ev : event) :
  (forall e, P (ERaise e)) ->
  (forall c, emits P (k c)) ->
  In ev
     (calls
        (run (try_finally
                (try_except (bind (sqlite3_connect p) k) (fun e => ret (f e)))
                finally_close) w)) ->
  ev = EConnect p \/ ev = EClose \/ P ev.
Proof.
  intros Hr Hk Hin.
  destruct (guarded_session P p k f w Hk) as [[e He] | [mid [Hm HP]]].
  - rewrite He in Hin. destruct Hin as [<-|[<-|[]]]; auto.
  - rewrite Hm in Hin. destruct Hin as [<-|Hin]; [auto|].
    apply in_app_or in Hin. destruct Hin as [Hin|[<-|[]]]; [|auto].
    right. right. rewrite Forall_forall in HP. now apply HP.
Qed.

(** X2.  The two tools that read the schema never write: whatever the driver
    answers, neither commits, [list_tables] submits nothing but the
    catalog query, and [get_database_schema] nothing but the catalog query
    and [PRAGMA table_info(...)] statements, all without parameters. *)
Theorem schema_tools_read_only (E : Env) (db_path : string) (w : world E) :
  ~ In ECommit (calls (run (list_tables E db_path) w))
  /\ (forall sql params,
        In (EExecute sql params) (calls (run (list_tables E db_path) w)) ->
        sql = user_tables_sql /\ params = [])
  /\ ~ In ECommit (calls (run (get_database_schema E db_path) w))
  /\ (forall sql params,
        In (EExecute sql params)
           (calls (run (get_database_schema E db_path) w)) ->
        params = []
        /\ (sql = user_tables_sql \/ exists v, sql = table_info_sql v)).
Proof.
  pose (P := fun ev : event =>
               match ev with
               | EExecute sql params => sql = user_tables_sql /\ params = []
               | EFetchall | ERaise _ => True
               | _ => False
               end).
  assert (Hlist : forall ev,
            In ev (calls (run (list_tables E db_path) w)) ->
            ev = EConnect db_path \/ ev = EClose \/ P ev).
  { intros ev. apply (guarded_calls_satisfy P); [intros e; exact I|].
    intros c. emits. }
  assert (Hschema : forall ev,
            In ev (calls (run (get_database_schema E db_path) w)) ->
            ev = EConnect db_path \/ ev = EClose \/ inspector_call ev).
  { intros ev. apply (guarded_calls_satisfy inspector_call);
      [intros e; exact I|].
    intros c. emits. }
  repeat apply conj.
  - intros H. destruct (Hlist _ H) as [H'|[H'|H']];
      [discriminate H' | discriminate H' | exact H'].
  - intros sql params H. destruct (Hlist _ H) as [H'|[H'|H']];
      [discriminate H' | discriminate H' | exact H'].
  - intros H. destruct (Hschema _ H) as [H'|[H'|H']];
      [discriminate H' | discriminate H' | exact H'].
  - intros sql params H. destruct (Hschema _ H) as [H'|[H'|H']];
      [discriminate H' | discriminate H' | exact H'].
Qed.

(* ------------------------------------------------------------------ *)
(** ** All the ways a call can go *)

Lemma write_tool_behaviour {E : Env} {A : Type} (p sql : string)
  (params : list pyval) (g : cursor -> A) (f : exn -> A) (w : world E) :
  write_behaviour p sql params g f w
    (run (try_finally
            (try_except
               (bind (sqlite3_connect p)
                  (fun c =>
                     bind (cursor_execute c sql params)
                       (fun cur =>
                          bind (conn_commit c) (fun _ => ret (g cur)))))
               (fun e => ret (f e)))
            finally_close) w).
Proof.
  unfold write_behaviour, run, try_finally, try_except, bind, cursor_execute,
    conn_commit, finally_close, ret, sqlite3_connect, driver_call.
  simpl.
  destruct (connect E p w) as [[c|e] w1]; simpl.
  - destruct (execute E c sql params w1) as [[cur|e] w2] eqn:Hexec; simpl.
    + destruct (commit E c w2) as [[[]|e] w3] eqn:Hcommit; simpl.
      * right. right. right. exists c, w1, cur, w2, w3. auto.
      * right. right. left. exists c, w1, cur, w2, e, w3. auto.
    + right. left. exists c, w1, e, w2. auto.
  - left. exists e, w1. auto.
Qed.

(** X3.  [insert_row], [update_rows] and [delete_rows], their maps not empty,
    go one of four ways: the connect raises; the statement raises; the
    commit raises; or everything succeeds.  In the first three the error
    result carries the message of the exception and nothing is committed
    after a failed statement; in the last the statement was committed once
    and the result is the [lastrowid] of the cursor for [insert_row] and
    its [rowcount] for the other two.  A connection obtained is closed in
    every case. *)
Theorem write_tools_behaviours
  (E : Env) (table db_path : string) (w : world E) :
  (forall data,
     data <> [] ->
     write_behaviour db_path (insert_row_sql table data) (values data)
       (fun cur => [[("inserted_id", lastrowid cur)]])
       (fun e => error_result (exn_str e)) w
       (run (insert_row E table data db_path) w))
  /\ (forall data where_,
        data <> [] -> where_ <> [] ->
        write_behaviour db_path (update_rows_sql table data where_)
          (values data ++ values where_)
          (fun cur => [[("rows_affected", PInt (rowcount cur))]])
          (fun e => error_result (exn_str e)) w
          (run (update_rows E table data where_ db_path) w))
  /\ (forall where_,
        where_ <> [] ->
        write_behaviour db_path (delete_rows_sql table where_) (values where_)
          (fun cur => [[("rows_affected", PInt (rowcount cur))]])
          (fun e => error_result (exn_str e)) w
          (run (delete_rows E table where_ db_path) w)).
Proof.
  repeat apply conj.
  - intros [|kv data] Hdata; [contradiction|]. apply write_tool_behaviour.
  - intros [|kv data] [|kw where_] Hdata Hwhere; try contradiction.
    apply write_tool_behaviour.
  - intros [|kw where_] Hwhere; [contradiction|]. apply write_tool_behaviour.
Qed.

Lemma write_tools_behaviours_witness :
  write_behaviour "shop.db" "DELETE FROM t WHERE id = ?" [PInt 2]
    (fun cur => [[("rows_affected", PInt (rowcount cur))]])
    (fun e => error_result (exn_str e))
    (Replay.session
       [Replay.Connected; Replay.Executed (Cursor None 0 PNone);
        Replay.Committed])
    (run (delete_rows Replay.env "t" [("id", PInt 2)] "shop.db")
       (Replay.session
          [Replay.Connected; Replay.Executed (Cursor None 0 PNone);
           Replay.Committed])).
Proof.
  assert (Hwhere : [("id", PInt 2)] <> ([] : dict)) by discriminate.
  exact (proj2 (proj2 (write_tools_behaviours Replay.env "t" "shop.db"
                         (Replay.session
                            [Replay.Connected;
                             Replay.Executed (Cursor None 0 PNone);
                             Replay.Committed])))
           [("id", PInt 2)] Hwhere).
Defined.

(** X4.  [add_column], its three checks passed, goes one of the same four ways;
    the error result is the one its two handlers choose for the exception,
    whichever call raised it, and on success the result is the
    acknowledgement naming the column, its type and the table. *)
Theorem add_column_behaviours
  (E : Env) (table column_name data_type db_path : string) (w : world E) :
  ~ white table ->
  ~ white column_name ->
  whitelisted data_type ->
  write_behaviour db_path (add_column_sql table column_name data_type) []
    (fun _ =>
       [[("success", PBool true);
         ("message",
          PStr ("Column '" ++ column_name ++ "' (" ++ data_type
                  ++ ") added to table '" ++ table ++ "'"))]])
    (add_column_error table column_name) w
    (run (add_column E table column_name data_type db_path) w).
Proof.
  intros Ht Hc Hw. apply strip_u_not_white in Ht, Hc. unfold add_column.
  destruct (PyStr.nonempty (PyStr.strip_u table)) eqn:Ht';
    [|now apply nonempty_false in Ht'].
  destruct (PyStr.nonempty (PyStr.strip_u column_name)) eqn:Hc';
    [|now apply nonempty_false in Hc'].
  apply upper_in_allowed_spec in Hw. rewrite Hw. simpl negb. cbv iota.
  apply (write_tool_behaviour db_path
           (add_column_sql table column_name data_type) []
           (fun _ =>
              [[("success", PBool true);
                ("message", PStr (added_message table column_name data_type))]])
           (add_column_error table column_name) w).
Qed.

Lemma add_column_behaviours_witness :
  write_behaviour "shop.db" "ALTER TABLE t ADD COLUMN age INTEGER" []
    (fun _ =>
       [[("success", PBool true);
         ("message", PStr "Column 'age' (INTEGER) added to table 't'")]])
    (add_column_error "t" "age")
    (Replay.session
       [Replay.Connected; Replay.Executed (Cursor None (-1) PNone);
        Replay.Committed])
    (run (add_column Replay.env "t" "age" "INTEGER" "shop.db")
       (Replay.session
          [Replay.Connected; Replay.Executed (Cursor None (-1) PNone);
           Replay.Committed])).
Proof.
  assert (Hw : whitelisted "INTEGER").
  { exists "INTEGER". split; [simpl; tauto | reflexivity]. }
  assert (Ht : ~ white "t")
    by (intros H; apply strip_u_white in H; vm_compute in H; discriminate H).
  assert (Hc : ~ white "age")
    by (intros H; apply strip_u_white in H; vm_compute in H; discriminate H).
  exact (add_column_behaviours Replay.env "t" "age" "INTEGER" "shop.db"
           (Replay.session
              [Replay.Connected; Replay.Executed (Cursor None (-1) PNone);
               Replay.Committed]) Ht Hc Hw).
Defined.

(** X5.  [execute_sql_query] on a read goes one of five ways (the connect, the
    statement or the fetch raises, the cursor has no description, or the
    rows are returned as records) and never commits; on any other text it
    goes one of the four ways of a write, the result on success being the
    [rowcount] of the cursor. *)
Theorem execute_sql_query_behaviours
  (E : Env) (query db_path : string) (w : world E) :
  (begins_with_select query ->
   read_behaviour db_path query w (run (execute_sql_query E query db_path) w))
  /\ (~ begins_with_select query ->
      write_behaviour db_path query []
        (fun cur => [[("rows_affected", PInt (rowcount cur))]])
        (fun e => error_result (exn_str e)) w
        (run (execute_sql_query E query db_path) w)).
Proof.
  split; intros Hsel.
  - apply is_select_spec in Hsel.
    unfold execute_sql_query. rewrite Hsel.
    unfold read_behaviour, run, try_finally, try_except, bind, cursor_execute,
      cursor_fetchall, finally_close, ret, sqlite3_connect, driver_call,
      column_names_of, raise.
    simpl.
    destruct (connect E db_path w) as [[c|e] w1]; simpl.
    + destruct (execute E c query [] w1) as [[cur|e] w2] eqn:Hexec; simpl.
      * destruct (description cur) as [names|] eqn:Hdesc; simpl.
        -- destruct (fetchall E c w2) as [[rows|e] w3] eqn:Hfetch; simpl.
           ++ do 4 right. exists c, w1, cur, w2, names, rows, w3. auto.
           ++ do 3 right. left. exists c, w1, cur, w2, names, e, w3. auto.
        -- do 2 right. left. exists c, w1, cur, w2. auto.
      * right. left. exists c, w1, e, w2. auto.
    + left. exists e, w1. auto.
  - assert (Hs : is_select query = false).
    { destruct (is_select query) eqn:Hq; [|reflexivity].
      exfalso. apply Hsel. now apply is_select_spec. }
    unfold execute_sql_query. rewrite Hs. apply write_tool_behaviour.
Qed.

Lemma execute_sql_query_behaviours_witness :
  read_behaviour "shop.db" "SELECT * FROM missing"
    (Replay.session
       [Replay.Connected;
        Replay.ExecuteFails (Exn OperationalError "no such table: missing")])
    (run (execute_sql_query Replay.env "SELECT * FROM missing" "shop.db")
       (Replay.session
          [Replay.Connected;
           Replay.ExecuteFails (Exn OperationalError "no such table: missing")])).
Proof.
  assert (Hsel : begins_with_select "SELECT * FROM missing").
  { exists "", "SELECT", " * FROM missing". repeat split. }
  exact (proj1 (execute_sql_query_behaviours Replay.env
                  "SELECT * FROM missing" "shop.db"
                  (Replay.session
                     [Replay.Connected;
                      Replay.ExecuteFails
                        (Exn OperationalError "no such table: missing")]))
           Hsel).
Defined.

(* ------------------------------------------------------------------ *)
(** ** When the store is reached *)

Lemma all_chars_app (p : ascii -> bool) (s t : string) :
  all_chars p (s ++ t) = all_chars p s && all_chars p t.
Proof.
  induction s as [|c s IH]; simpl; [reflexivity|].
  now rewrite IH, andb_assoc.
Qed.

(** X6.  [add_column] reports the first check that fails, in the order table
    name, column name, declared type, and asks the store nothing: a table
    name made of white space only (the empty name included) gives
    "Table name cannot be empty" whatever the other arguments; otherwise
    such a column name gives "Column name cannot be empty"; otherwise a
    type outside the whitelist gives a message that lists the seven
    whitelisted types, in the order the set happens to be iterated. *)
Theorem add_column_first_failed_check
  (E : Env) (table column_name data_type db_path : string) (w : world E) :
  (white table ->
   run (add_column E table column_name data_type db_path) w
     = Outcome (Ok (error_result "Table name cannot be empty")) w [])
  /\ (~ white table ->
      white column_name ->
      run (add_column E table column_name data_type db_path) w
        = Outcome (Ok (error_result "Column name cannot be empty")) w [])
  /\ (~ white table ->
      ~ white column_name ->
      ~ whitelisted data_type ->
      exists order,
        Permutation order allowed_types
        /\ run (add_column E table column_name data_type db_path) w
           = Outcome
               (Ok (error_result
                      ("Data type must be one of: " ++ PyStr.join ", " order)))
               w []).
Proof.
  repeat apply conj.
  - intros Ht. apply strip_u_white in Ht. unfold add_column. rewrite Ht.
    reflexivity.
  - intros Ht Hc. apply strip_u_not_white in Ht. apply strip_u_white in Hc.
    unfold add_column. rewrite Hc.
    destruct (PyStr.nonempty (PyStr.strip_u table)) eqn:Ht';
      [reflexivity | now apply nonempty_false in Ht'].
  - intros Ht Hc Hw. apply strip_u_not_white in Ht, Hc.
    unfold add_column.
    destruct (PyStr.nonempty (PyStr.strip_u table)) eqn:Ht';
      [|now apply nonempty_false in Ht'].
    destruct (PyStr.nonempty (PyStr.strip_u column_name)) eqn:Hc';
      [|now apply nonempty_false in Hc'].
    destruct (upper_in_allowed data_type) eqn:Hd;
      [exfalso; apply Hw; now apply upper_in_allowed_spec|].
    exists (allowed_iter E). split; [apply allowed_iter_perm | reflexivity].
Qed.

Lemma add_column_first_failed_check_witness :
  run (add_column Replay.env (PyStr.of_bytes [32; 194; 160]%N) "" "VARCHAR"
         "shop.db") (Replay.session [])
    = Outcome (Ok (error_result "Table name cannot be empty"))
        (Replay.session []) []
  /\ run (add_column Replay.env "t" (PyStr.of_bytes [9; 226; 128; 131]%N)
            "VARCHAR" "shop.db") (Replay.session [])
     = Outcome (Ok (error_result "Column name cannot be empty"))
         (Replay.session []) [].
Proof.
  split.
  - refine (proj1 (add_column_first_failed_check Replay.env
                     (PyStr.of_bytes [32; 194; 160]%N) "" "VARCHAR" "shop.db"
                     (Replay.session [])) _).
    apply blank_white. vm_compute. reflexivity.
  - refine (proj1 (proj2 (add_column_first_failed_check Replay.env "t"
                            (PyStr.of_bytes [9; 226; 128; 131]%N) "VARCHAR"
                            "shop.db" (Replay.session []))) _ _).
    + intros H. apply blank_white in H. vm_compute in H. discriminate H.
    + apply blank_white. vm_compute. reflexivity.
Defined.

Lemma connect_first_not_empty {E : Env} {A : Type} (p : string)
  (k : conn E -> M E A) (f : exn -> A) (w : world E) :
  (forall c, tidy (k c)) ->
  calls
    (run (try_finally
            (try_except (bind (sqlite3_connect p) k) (fun e => ret (f e)))
            finally_close) w) <> [].
Proof.
  intros Hk. destruct (guarded_connect_first p k f w Hk) as [tl Htl].
  rewrite Htl. discriminate.
Qed.

(** X7.  A call reaches the driver exactly when its preconditions hold:
    [execute_sql_query], [get_database_schema] and [list_tables] always
    do; [insert_row] unless [data] is empty; [update_rows] unless [data]
    or [where] is empty; [delete_rows] unless [where] is empty;
    [add_column] unless the table or column name is made of white space
    only or the type is outside the whitelist. *)
Theorem store_reached_iff_preconditions
  (E : Env) (table db_path : string) (w : world E) :
  (forall query, calls (run (execute_sql_query E query db_path) w) <> [])
  /\ calls (run (get_database_schema E db_path) w) <> []
  /\ calls (run (list_tables E db_path) w) <> []
  /\ (forall data,
        calls (run (insert_row E table data db_path) w) = [] <-> data = [])
  /\ (forall data where_,
        calls (run (update_rows E table data where_ db_path) w) = []
        <-> data = [] \/ where_ = [])
  /\ (forall where_,
        calls (run (delete_rows E table where_ db_path) w) = []
        <-> where_ = [])
  /\ (forall column_name data_type,
        calls (run (add_column E table column_name data_type db_path) w) = []
        <-> white table \/ white column_name \/ ~ whitelisted data_type).
Proof.
  repeat apply conj.
  - intros query. apply connect_first_not_empty. intros c. tidy.
  - apply connect_first_not_empty. intros c. tidy.
  - apply connect_first_not_empty. intros c. tidy.
  - intros [|kv data]; split; try reflexivity; try discriminate.
    intros H. exfalso. revert H. apply connect_first_not_empty.
    intros c. tidy.
  - intros [|kv data] [|kw where_]; split; try reflexivity; auto.
    + intros H. exfalso. revert H. unfold update_rows. simpl orb. cbv iota.
      apply connect_first_not_empty. intros c. tidy.
    + intros [H|H]; discriminate H.
  - intros [|kw where_]; split; try reflexivity; try discriminate.
    intros H. exfalso. revert H. unfold delete_rows. simpl is_empty. cbv iota.
    apply connect_first_not_empty. intros c. tidy.
  - intros column_name data_type. rewrite <- !strip_u_white.
    unfold add_column.
    destruct (PyStr.nonempty (PyStr.strip_u table)) eqn:Ht; simpl.
    2:{ apply nonempty_false in Ht. split; auto. }
    destruct (PyStr.nonempty (PyStr.strip_u column_name)) eqn:Hc; simpl.
    2:{ apply nonempty_false in Hc. split; auto. }
    destruct (upper_in_allowed data_type) eqn:Hd; simpl.
    + split.
      * intros H. exfalso. revert H. apply connect_first_not_empty.
        intros c. tidy.
      * intros [H|[H|H]].
        -- apply nonempty_false in H. congruence.
        -- apply nonempty_false in H. congruence.
        -- exfalso. apply H. now apply upper_in_allowed_spec.
    + split; [|reflexivity]. intros _. right. right. intros Hw.
      apply upper_in_allowed_spec in Hw. congruence.
Qed.

Lemma store_reached_iff_preconditions_witness :
  calls (run (delete_rows Replay.env "t" [] "shop.db") (Replay.session [])) = [].
Proof.
  exact (proj2 (proj1 (proj2 (proj2 (proj2 (proj2 (proj2
           (store_reached_iff_preconditions Replay.env "t" "shop.db"
              (Replay.session []))))))) []) eq_refl).
Defined.

(* ------------------------------------------------------------------ *)
(** ** How add_column words a failure of the store *)

Lemma lower_cons (a : ascii) (s : string) :
  PyStr.lower (String a s) = String (PyStr.lower_char a) (PyStr.lower s).
Proof. reflexivity. Qed.

Lemma lower_char_same_letter (a b : ascii) :
  Ascii.eqb (PyStr.lower_char a) (PyStr.lower_char b) = same_letter a b.
Proof.
  revert b. revert a.
  assert (H : forall_ascii (fun a => forall_ascii (fun b =>
            Bool.eqb (Ascii.eqb (PyStr.lower_char a) (PyStr.lower_char b))
                     (same_letter a b))) = true) by (vm_compute; reflexivity).
  intros a b.
  pose proof (forall_ascii_spec _ H a) as Ha. cbv beta in Ha.
  pose proof (forall_ascii_spec _ Ha b) as Hb. cbv beta in Hb.
  now apply Bool.eqb_prop in Hb.
Qed.

Lemma lower_eq_nocase (s t : string) :
  PyStr.lower s = PyStr.lower t <-> eq_nocase s t = true.
Proof.
  revert t. induction s as [|a s IH]; intros [|b t];
    rewrite ?lower_cons; simpl; try easy.
  rewrite andb_true_iff, <- IH, <- lower_char_same_letter, Ascii.eqb_eq.
  split.
  - intros H. now inversion H.
  - intros [-> ->]. reflexivity.
Qed.

Lemma lower_app (s t : string) :
  PyStr.lower (s ++ t) = PyStr.lower s ++ PyStr.lower t.
Proof.
  induction s as [|a s IH]; [reflexivity|].
  simpl. rewrite !lower_cons, IH. reflexivity.
Qed.

Lemma lower_app_inv (s a b : string) :
  PyStr.lower s = a ++ b ->
  exists a' b', s = a' ++ b' /\ PyStr.lower a' = a /\ PyStr.lower b' = b.
Proof.
  revert s. induction a as [|c a IH]; intros s H.
  - exists "", s. auto.
  - destruct s as [|c' s]; [discriminate H|].
    rewrite lower_cons in H. simpl in H. inversion H as [[Hc Hs]].
    destruct (IH s Hs) as [a' [b' [-> [Ha Hb]]]].
    exists (String c' a'), b'. rewrite lower_cons, Ha. auto.
Qed.

Lemma prefix_spec (n h : string) :
  String.prefix n h = true <-> exists post, h = n ++ post.
Proof.
  revert h. induction n as [|a n IH]; intros h.
  - rewrite prefix_empty. split; [|reflexivity]. intros _. now exists h.
  - destruct h as [|b h]; simpl.
    + split; [discriminate|]. intros [post H]. discriminate H.
    + destruct (ascii_dec a b) as [->|Hne].
      * rewrite IH. split; intros [post H]; exists post.
        -- now rewrite H.
        -- now inversion H.
      * split; [discriminate|]. intros [post H]. inversion H.
        now contradiction Hne.
Qed.

Lemma contains_nil (n : string) :
  PyStr.contains n "" = String.prefix n "" || false.
Proof. reflexivity. Qed.

Lemma contains_cons (n : string) (b : ascii) (h : string) :
  PyStr.contains n (String b h)
    = String.prefix n (String b h) || PyStr.contains n h.
Proof. reflexivity. Qed.

Lemma contains_spec (n h : string) :
  PyStr.contains n h = true <-> exists pre post, h = pre ++ n ++ post.
Proof.
  induction h as [|b h IH].
  - rewrite contains_nil, orb_false_r, prefix_spec. split.
    + intros [post H]. now exists "", post.
    + intros [pre [post H]]. destruct pre; [now exists post|discriminate H].
  - rewrite contains_cons, orb_true_iff, IH, prefix_spec. split.
    + intros [[post H] | [pre [post H]]].
      * now exists "", post.
      * exists (String b pre), post. simpl. now rewrite H.
    + intros [pre [post H]]. destruct pre as [|c pre].
      * left. now exists post.
      * right. simpl in H. inversion H. now exists pre, post.
Qed.

(** The test ["needle" in str(e).lower()], for a needle in lower case, is
    containment up to letter case. *)
Lemma contains_lower_mentions (needle msg : string) :
  PyStr.lower needle = needle ->
  PyStr.contains needle (PyStr.lower msg) = true <-> mentions needle msg.
Proof.
  intros Hn. rewrite contains_spec. unfold mentions. split.
  - intros [pre [post H]].
    destruct (lower_app_inv _ _ _ H) as [pre' [rest [-> [Hpre Hrest]]]].
    destruct (lower_app_inv _ _ _ Hrest) as [mid [post' [-> [Hmid Hpost]]]].
    exists pre', mid, post'. split; [reflexivity|].
    apply lower_eq_nocase. now rewrite Hn.
  - intros [pre [mid [post [-> Hmid]]]].
    apply lower_eq_nocase in Hmid. rewrite Hn in Hmid.
    exists (PyStr.lower pre), (PyStr.lower post).
    now rewrite !lower_app, Hmid.
Qed.

Lemma add_column_raised
  (E : Env) (table column_name data_type db_path : string) (w : world E)
  (e : exn) :
  In (ERaise e)
     (calls (run (add_column E table column_name data_type db_path) w)) ->
  returned (run (add_column E table column_name data_type db_path) w)
    = Ok (add_column_error table column_name e).
Proof.
  unfold add_column.
  destruct (negb (PyStr.nonempty (PyStr.strip_u table))); [intros []|].
  destruct (negb (PyStr.nonempty (PyStr.strip_u column_name))); [intros []|].
  destruct (negb (upper_in_allowed data_type)); [intros []|].
  match goal with
  | |- context [run (try_finally (try_except ?b ?h) _) w] =>
      destruct (guarded_returns b (add_column_error table column_name) w)
        as [r [Hr He]]; [tidy|]
  end.
  intros Hin. pose proof (He e Hin) as Hr'. rewrite Hr' in Hr. exact Hr.
Qed.

(** X8.  When a call of [add_column] raises an exception, at the connect, at
    the statement or at the commit, the wording of the error result
    depends on the class and the message of the exception alone.  For a
    [sqlite3.OperationalError]: a message that mentions "duplicate column
    name" in any letter case gives "Column ... already exists in table
    ..." (also when it mentions "no such table" as well); otherwise a
    message that mentions "no such table" gives "Table ... does not
    exist"; otherwise the message is passed on after "SQLite error: ".
    For any other exception it is passed on after "Unexpected error: ". *)
Theorem add_column_error_wording
  (E : Env) (table column_name data_type db_path : string) (w : world E)
  (e : exn) :
  In (ERaise e)
     (calls (run (add_column E table column_name data_type db_path) w)) ->
  (exn_cls e = OperationalError ->
   mentions "duplicate column name" (exn_str e) ->
   returned (run (add_column E table column_name data_type db_path) w)
     = Ok (error_result
             ("Column '" ++ column_name ++ "' already exists in table '"
                ++ table ++ "'")))
  /\ (exn_cls e = OperationalError ->
      ~ mentions "duplicate column name" (exn_str e) ->
      mentions "no such table" (exn_str e) ->
      returned (run (add_column E table column_name data_type db_path) w)
        = Ok (error_result ("Table '" ++ table ++ "' does not exist")))
  /\ (exn_cls e = OperationalError ->
      ~ mentions "duplicate column name" (exn_str e) ->
      ~ mentions "no such table" (exn_str e) ->
      returned (run (add_column E table column_name data_type db_path) w)
        = Ok (error_result ("SQLite error: " ++ exn_str e)))
  /\ (exn_cls e = OtherException ->
      returned (run (add_column E table column_name data_type db_path) w)
        = Ok (error_result ("Unexpected error: " ++ exn_str e))).
Proof.
  intros Hin. rewrite (add_column_raised E _ _ _ _ w e Hin).
  unfold add_column_error.
  assert (Hdup : PyStr.contains "duplicate column name"
                   (PyStr.lower (exn_str e)) = true
                 <-> mentions "duplicate column name" (exn_str e))
    by (apply contains_lower_mentions; reflexivity).
  assert (Hnst : PyStr.contains "no such table" (PyStr.lower (exn_str e)) = true
                 <-> mentions "no such table" (exn_str e))
    by (apply contains_lower_mentions; reflexivity).
  repeat apply conj.
  - intros -> Hm. apply Hdup in Hm. now rewrite Hm.
  - intros -> Hd Hn.
    destruct (PyStr.contains "duplicate column name" (PyStr.lower (exn_str e)));
      [exfalso; apply Hd; now apply Hdup|].
    apply Hnst in Hn. now rewrite Hn.
  - intros -> Hd Hn.
    destruct (PyStr.contains "duplicate column name" (PyStr.lower (exn_str e)));
      [exfalso; apply Hd; now apply Hdup|].
    destruct (PyStr.contains "no such table" (PyStr.lower (exn_str e)));
      [exfalso; apply Hn; now apply Hnst|].
    reflexivity.
  - intros ->. reflexivity.
Qed.

Lemma add_column_error_wording_witness :
  returned
    (run (add_column Replay.env "orders" "total" "REAL" "shop.db")
       (Replay.session
          [Replay.Connected;
           Replay.ExecuteFails (Exn OperationalError "No Such Table: orders")]))
    = Ok (error_result "Table 'orders' does not exist").
Proof.
  assert (Hin : In (ERaise (Exn OperationalError "No Such Table: orders"))
                  (calls
                     (run (add_column Replay.env "orders" "total" "REAL" "shop.db")
                        (Replay.session
                           [Replay.Connected;
                            Replay.ExecuteFails
                              (Exn OperationalError "No Such Table: orders")])))).
  { vm_compute. right. right. left. reflexivity. }
  assert (Hd : ~ mentions "duplicate column name" "No Such Table: orders").
  { intros H. apply contains_lower_mentions in H; [|reflexivity].
    vm_compute in H. discriminate H. }
  assert (Hn : mentions "no such table" "No Such Table: orders").
  { exists "", "No Such Table", ": orders". split; reflexivity. }
  exact (proj1 (proj2 (add_column_error_wording Replay.env "orders" "total"
                         "REAL" "shop.db" _ _ Hin)) eq_refl Hd Hn).
Defined.

(* ------------------------------------------------------------------ *)
(** ** Placeholders and parameters *)

Lemma scan_app (a b : string) (m : lexing) (n : nat) :
  scan m n (a ++ b)
    = match scan m n a with
      | Some (m', n') => scan m' n' b
      | None => None
      end.
Proof.
  revert m n. induction a as [|c a IH]; intros m n; simpl; [reflexivity|].
  destruct (read m c) as [m'|]; [apply IH | reflexivity].
Qed.

Lemma read_ident_part (c : ascii) :
  ident_part c = true -> read Plain c = Some Plain.
Proof.
  assert (H : forall_ascii (fun c =>
                implb (ident_part c)
                  (match read Plain c with
                   | Some Plain => true
                   | _ => false
                   end)) = true) by (vm_compute; reflexivity).
  pose proof (forall_ascii_spec _ H c) as Hc. cbv beta in Hc.
  intros Hi. rewrite Hi in Hc.
  destruct (read Plain c) as [[]|]; (reflexivity || discriminate Hc).
Qed.

Lemma scan_ident_part (s : string) (n : nat) :
  all_chars ident_part s = true -> scan Plain n s = Some (Plain, n).
Proof.
  induction s as [|c s IH]; cbn [scan all_chars]; [reflexivity|].
  intros H. apply andb_true_iff in H as [Hc Hs].
  rewrite (read_ident_part c Hc). cbn [is_marked]. exact (IH Hs).
Qed.

Lemma scan_identifier (s : string) (n : nat) :
  valid_identifier s = true -> scan Plain n s = Some (Plain, n).
Proof.
  intros H. apply scan_ident_part.
  destruct s as [|c s]; [discriminate H|]. simpl in H |- *.
  apply andb_true_iff in H as [Hc Hs]. rewrite Hs, andb_true_r.
  unfold ident_part. rewrite Hc. reflexivity.
Qed.

Lemma scan_app_some (a b : string) (m m' : lexing) (n n' : nat) :
  scan m n a = Some (m', n') -> scan m n (a ++ b) = scan m' n' b.
Proof. intros H. rewrite scan_app, H. reflexivity. Qed.

Lemma join_cons (sep x y : string) (l : list string) :
  PyStr.join sep (x :: y :: l) = x ++ sep ++ PyStr.join sep (y :: l).
Proof. reflexivity. Qed.

Lemma scan_names (ks : list string) (n : nat) :
  forallb valid_identifier ks = true ->
  scan Plain n (PyStr.join ", " ks) = Some (Plain, n).
Proof.
  induction ks as [|x [|y ks] IH]; intros H.
  - reflexivity.
  - simpl in H. apply andb_true_iff in H as [Hx _].
    exact (scan_identifier x n Hx).
  - rewrite join_cons. change (forallb valid_identifier (x :: y :: ks))
      with (valid_identifier x && forallb valid_identifier (y :: ks)) in H.
    apply andb_true_iff in H as [Hx Hr].
    rewrite (scan_app_some _ _ _ _ _ _ (scan_identifier x n Hx)).
    rewrite (scan_app_some ", " _ Plain Plain n n eq_refl).
    exact (IH Hr).
Qed.

Lemma scan_marks (ks : list string) (n : nat) :
  scan Plain n (PyStr.join ", " (map (fun _ : string => "?") ks))
    = Some (after_marks ks, n + length ks).
Proof.
  revert n. induction ks as [|x [|y ks] IH]; intros n.
  - simpl. f_equal. f_equal. lia.
  - simpl. f_equal. f_equal. lia.
  - change (map (fun _ : string => "?") (x :: y :: ks))
      with ("?" :: "?" :: map (fun _ : string => "?") ks).
    rewrite join_cons.
    change ("?" :: map (fun _ : string => "?") ks)
      with (map (fun _ : string => "?") (y :: ks)).
    rewrite (scan_app_some "?" _ Plain Marked n (S n) eq_refl).
    rewrite (scan_app_some ", " _ Marked Plain (S n) (S n) eq_refl).
    rewrite IH. cbn [after_marks length]. f_equal. f_equal. lia.
Qed.

Lemma scan_eq_clause (k : string) (n : nat) :
  valid_identifier k = true ->
  scan Plain n (k ++ " = ?") = Some (Marked, S n).
Proof.
  intros Hk. rewrite (scan_app_some _ _ _ _ _ _ (scan_identifier k n Hk)).
  reflexivity.
Qed.

Lemma scan_eq_clauses (sep : string) (d : dict) (n : nat) :
  (forall k, scan Marked k sep = Some (Plain, k)) ->
  forallb valid_identifier (keys d) = true ->
  scan Plain n (PyStr.join sep (eq_clauses d))
    = Some (after_marks d, n + length (values d)).
Proof.
  intros Hsep. unfold eq_clauses, keys, values.
  revert n. induction d as [|[x vx] [|[y vy] d] IH]; intros n H.
  - simpl. f_equal. f_equal. lia.
  - simpl in H. apply andb_true_iff in H as [Hx _].
    cbn [map fst PyStr.join String.concat].
    unfold PyStr.join. cbn [String.concat].
    rewrite (scan_eq_clause x n Hx).
    simpl. f_equal. f_equal. lia.
  - change (forallb valid_identifier (map fst ((x, vx) :: (y, vy) :: d)))
      with (valid_identifier x
            && forallb valid_identifier (map fst ((y, vy) :: d))) in H.
    apply andb_true_iff in H as [Hx Hr].
    change (map (fun col : string => col ++ " = ?")
              (map fst ((x, vx) :: (y, vy) :: d)))
      with ((x ++ " = ?")
              :: (y ++ " = ?")
              :: map (fun col : string => col ++ " = ?") (map fst d)).
    rewrite join_cons.
    change ((y ++ " = ?")
              :: map (fun col : string => col ++ " = ?") (map fst d))
      with (map (fun col : string => col ++ " = ?") (map fst ((y, vy) :: d))).
    rewrite (scan_app_some _ _ _ _ _ _ (scan_eq_clause x n Hx)).
    rewrite (scan_app_some _ _ _ _ _ _ (Hsep (S n))).
    rewrite (IH (S n) Hr). cbn [after_marks map length]. f_equal. f_equal. lia.
Qed.

Lemma scan_after_marks {A : Type} (l : list A) (n : nat) (s : string) :
  scan Marked n s = scan Plain n s ->
  scan (after_marks l) n s = scan Plain n s.
Proof. intros H. destruct l; [reflexivity | exact H]. Qed.

(** X9.  With a table name and column names that are identifiers (a letter
    or an underscore, then letters, digits and underscores), the text built
    by [insert_row], [update_rows] and [delete_rows] has exactly as many
    placeholders as the parameter list passed with it has values, a
    placeholder being a question mark outside quoted text and comments. *)
Theorem placeholders_match_parameters
  (table : string) (data where_ : dict) :
  valid_identifier table = true ->
  forallb valid_identifier (keys data) = true ->
  forallb valid_identifier (keys where_) = true ->
  sql_parameters (insert_row_sql table data) = Some (length (values data))
  /\ sql_parameters (update_rows_sql table data where_)
     = Some (length (values data ++ values where_))
  /\ sql_parameters (delete_rows_sql table where_)
     = Some (length (values where_)).
Proof.
  intros Ht Hd Hw. unfold sql_parameters. repeat apply conj.
  - unfold insert_row_sql. cbv zeta.
    rewrite (scan_app_some "INSERT INTO " _ Plain Plain 0 0 eq_refl).
    rewrite (scan_app_some _ _ _ _ _ _ (scan_identifier table 0 Ht)).
    rewrite (scan_app_some " (" _ Plain Plain 0 0 eq_refl).
    rewrite (scan_app_some _ _ _ _ _ _ (scan_names _ 0 Hd)).
    rewrite (scan_app_some ") VALUES (" _ Plain Plain 0 0 eq_refl).
    rewrite (scan_app_some _ _ _ _ _ _ (scan_marks _ 0)).
    rewrite scan_after_marks by reflexivity.
    unfold keys, values. rewrite !length_map. reflexivity.
  - unfold update_rows_sql. cbv zeta.
    rewrite (scan_app_some "UPDATE " _ Plain Plain 0 0 eq_refl).
    rewrite (scan_app_some _ _ _ _ _ _ (scan_identifier table 0 Ht)).
    rewrite (scan_app_some " SET " _ Plain Plain 0 0 eq_refl).
    rewrite (scan_app_some _ _ _ _ _ _
               (scan_eq_clauses ", " data 0 (fun k => eq_refl) Hd)).
    rewrite scan_app, scan_after_marks by reflexivity.
    change (scan Plain (0 + length (values data)) " WHERE ")
      with (Some (Plain, 0 + length (values data))).
    cbv iota beta.
    rewrite (scan_eq_clauses " AND " where_ _ (fun k => eq_refl) Hw).
    rewrite length_app. reflexivity.
  - unfold delete_rows_sql. cbv zeta.
    rewrite (scan_app_some "DELETE FROM " _ Plain Plain 0 0 eq_refl).
    rewrite (scan_app_some _ _ _ _ _ _ (scan_identifier table 0 Ht)).
    rewrite (scan_app_some " WHERE " _ Plain Plain 0 0 eq_refl).
    rewrite (scan_eq_clauses " AND " where_ _ (fun k => eq_refl) Hw).
    reflexivity.
Qed.

Lemma placeholders_match_parameters_witness :
  sql_parameters "UPDATE t SET name = ?, age = ? WHERE id = ?" = Some 3.
Proof.
  exact (proj1 (proj2 (placeholders_match_parameters "t"
                         [("name", PStr "Bob"); ("age", PInt 3)]
                         [("id", PInt 1)] eq_refl eq_refl eq_refl))).
Defined.

(* ------------------------------------------------------------------ *)
(** ** What the schema tools return *)

Lemma for_each_first_ok {E : Env} (rows : list (list pyval)) (s : state E) :
  Forall (fun row => row <> []) rows ->
  for_each (fun row => item row 0) rows s = (Ok (map (hd PNone) rows), s).
Proof.
  induction 1 as [|row rows Hrow Hrows IH]; simpl; [reflexivity|].
  destruct row as [|v row]; [contradiction|].
  unfold bind. simpl. unfold ret at 1. rewrite IH. reflexivity.
Qed.

Lemma for_each_first_raises {E : Env} (rows : list (list pyval))
  (s : state E) :
  Exists (fun row => row = []) rows ->
  for_each (fun row => item row 0) rows s
    = (Raise IndexError_tuple,
       State (st_world s) (st_conn s) (st_log s ++ [ERaise IndexError_tuple])).
Proof.
  intros H. induction rows as [|row rows IH]; [inversion H|].
  simpl. unfold bind. destruct row as [|v row]; [reflexivity|].
  simpl. unfold ret at 1. rewrite IH; [reflexivity|].
  inversion H as [? ? H0|? ? H0]; [discriminate H0 | exact H0].
Qed.

(** X10.  When the store answers the catalog query, [list_tables] returns the
    first entry of every row, in the order of the rows, and commits
    nothing; were a row empty, the result would be the one-element list
    ["error: tuple index out of range"]. *)
Theorem list_tables_returns_first_column
  (E : Env) (db_path : string) (w w1 w2 w3 : world E) (c : conn E)
  (cur : cursor) (rows : list (list pyval)) :
  connect E db_path w = (Ok c, w1) ->
  execute E c user_tables_sql [] w1 = (Ok cur, w2) ->
  fetchall E c w2 = (Ok rows, w3) ->
  (Forall (fun row => row <> []) rows ->
   run (list_tables E db_path) w
     = Outcome (Ok (map (hd PNone) rows)) (close E c w3)
         [EConnect db_path; EExecute user_tables_sql []; EFetchall; EClose])
  /\ (Exists (fun row => row = []) rows ->
      run (list_tables E db_path) w
        = Outcome (Ok [PStr "error: tuple index out of range"]) (close E c w3)
            [EConnect db_path; EExecute user_tables_sql []; EFetchall;
             ERaise IndexError_tuple; EClose]).
Proof.
  intros Hconn Hexec Hfetch. split; intros Hrows.
  - unfold list_tables. start_run. step. step. step.
    rewrite (for_each_first_ok rows _ Hrows). reflexivity.
  - unfold list_tables. start_run. step. step. step.
    rewrite (for_each_first_raises rows _ Hrows). reflexivity.
Qed.

Lemma list_tables_returns_first_column_witness :
  run (list_tables Replay.env "shop.db")
      (Replay.session
         [Replay.Connected;
          Replay.Executed (Cursor (Some ["name"]) (-1) PNone);
          Replay.Fetched [[PStr "customers"]; [PStr "orders"]]])
    = Outcome (Ok [PStr "customers"; PStr "orders"]) (Replay.session [])
        [EConnect "shop.db"; EExecute user_tables_sql []; EFetchall; EClose].
Proof.
  assert (Hrows : Forall (fun row : list pyval => row <> [])
                    [[PStr "customers"]; [PStr "orders"]]).
  { repeat constructor; discriminate. }
  exact (proj1 (list_tables_returns_first_column Replay.env "shop.db"
                  (Replay.session
                     [Replay.Connected;
                      Replay.Executed (Cursor (Some ["name"]) (-1) PNone);
                      Replay.Fetched [[PStr "customers"]; [PStr "orders"]]])
                  _ _ _ tt _ [[PStr "customers"]; [PStr "orders"]]
                  eq_refl eq_refl eq_refl) Hrows).
Defined.

Lemma column_of_row_ok {E : Env} (col : list pyval) (cd : column_def)
  (s : state E) :
  column_def_of col = Some cd -> column_of_row col s = (Ok cd, s).
Proof.
  destruct col as [|c0 [|n [|t [|nn [|d [|pk col]]]]]]; try discriminate.
  simpl. intros H. injection H as <-. reflexivity.
Qed.

Lemma for_each_columns_ok {E : Env} (columns : list (list pyval))
  (cols : list column_def) (s : state E) :
  column_defs_of columns = Some cols ->
  for_each column_of_row columns s = (Ok cols, s).
Proof.
  revert cols. induction columns as [|col columns IH]; intros cols H.
  - injection H as <-. reflexivity.
  - simpl in H. destruct (column_def_of col) as [cd|] eqn:Hcd;
      [|discriminate H].
    destruct (column_defs_of columns) as [cds|]; [|discriminate H].
    injection H as <-. simpl. unfold bind.
    rewrite (column_of_row_ok col cd s Hcd), (IH cds eq_refl). reflexivity.
Qed.

Lemma bind_ok {E : Env} {A B : Type} (m : M E A) (k : A -> M E B)
  (s s' : state E) (a : A) :
  m s = (Ok a, s') -> bind m k s = k a s'.
Proof. intros H. unfold bind. now rewrite H. Qed.

Lemma describe_table_ok {E : Env} (c : conn E) (w w1 w2 : world E)
  (name : pyval) (more : list pyval) (cur : cursor)
  (columns : list (list pyval)) (cols : list column_def)
  (co : option (conn E)) (log : list event) :
  execute E c (table_info_sql name) [] w = (Ok cur, w1) ->
  fetchall E c w1 = (Ok columns, w2) ->
  column_defs_of columns = Some cols ->
  bind (item (name :: more) 0)
    (fun table_name =>
       bind (cursor_execute c (table_info_sql table_name) [])
         (fun _ =>
            bind (cursor_fetchall c)
              (fun columns =>
                 bind (for_each column_of_row columns)
                   (fun cols => ret (TableInfo table_name cols)))))
    (State w co log)
    = (Ok (TableInfo name cols),
       State w2 co (log ++ [EExecute (table_info_sql name) []; EFetchall])%list).
Proof.
  intros Hexec Hfetch Hcols.
  erewrite bind_ok by reflexivity.
  erewrite bind_ok
    by (unfold cursor_execute; apply driver_call_ok; exact Hexec).
  erewrite bind_ok
    by (unfold cursor_fetchall; apply driver_call_ok; exact Hfetch).
  erewrite bind_ok by (apply for_each_columns_ok; exact Hcols).
  cbn [st_world st_conn st_log]. unfold ret.
  now rewrite <- app_assoc.
Qed.

Lemma for_each_tables_ok {E : Env} (c : conn E) (w w' : world E)
  (tables : list (list pyval)) (infos : list schema_item) :
  describes c w tables infos w' ->
  forall (co : option (conn E)) (log : list event),
  exists l,
    for_each
      (fun table =>
         bind (item table 0)
           (fun table_name =>
              bind (cursor_execute c (table_info_sql table_name) [])
                (fun _ =>
                   bind (cursor_fetchall c)
                     (fun columns =>
                        bind (for_each column_of_row columns)
                          (fun cols => ret (TableInfo table_name cols))))))
      tables (State w co log)
      = (Ok infos, State w' co (log ++ l)%list)
    /\ ~ In ECommit l.
Proof.
  induction 1 as [w|w w1 w2 w3 name more rest cur columns cols infos
                    Hexec Hfetch Hcols Hrest IH]; intros co log.
  - exists []. rewrite app_nil_r. split; [reflexivity | intros []].
  - destruct (IH co (log ++ [EExecute (table_info_sql name) []; EFetchall])%list)
      as [l [Hl Hno]].
    exists (EExecute (table_info_sql name) [] :: EFetchall :: l). split.
    + cbn [for_each].
      erewrite bind_ok by (eapply describe_table_ok; eassumption).
      erewrite bind_ok by exact Hl.
      unfold ret. now rewrite <- app_assoc.
    + intros [H|[H|H]]; [discriminate H | discriminate H | exact (Hno H)].
Qed.

(** X11.  When the store answers the catalog query and then, for the first
    entry of each of its rows in turn, a [PRAGMA table_info] with rows of
    six entries, [get_database_schema] returns one description per table,
    in the order of the catalog rows; the columns of a table come in the
    order of the pragma rows, with name, type and default taken from
    entries 1, 2 and 4 and the two flags from the truth values of entries
    3 and 5.  Nothing is committed. *)
Theorem get_database_schema_describes
  (E : Env) (db_path : string) (w w1 w2 w3 w4 : world E) (c : conn E)
  (cur : cursor) (tables : list (list pyval)) (infos : list schema_item) :
  connect E db_path w = (Ok c, w1) ->
  execute E c user_tables_sql [] w1 = (Ok cur, w2) ->
  fetchall E c w2 = (Ok tables, w3) ->
  describes c w3 tables infos w4 ->
  returned (run (get_database_schema E db_path) w) = Ok infos
  /\ final_world (run (get_database_schema E db_path) w) = close E c w4
  /\ length infos = length tables
  /\ ~ In ECommit (calls (run (get_database_schema E db_path) w)).
Proof.
  intros Hconn Hexec Hfetch Hdesc.
  destruct (for_each_tables_ok c w3 w4 tables infos Hdesc (Some c)
              [EConnect db_path; EExecute user_tables_sql []; EFetchall])
    as [l [Hl Hno]].
  assert (Hlen : length infos = length tables).
  { clear - Hdesc. induction Hdesc; simpl; congruence. }
  unfold get_database_schema. unfold run, try_finally, try_except.
  erewrite bind_ok by (apply connect_ok; exact Hconn).
  erewrite bind_ok
    by (unfold cursor_execute; apply driver_call_ok; exact Hexec).
  erewrite bind_ok
    by (unfold cursor_fetchall; apply driver_call_ok; exact Hfetch).
  cbn [st_world st_conn st_log app].
  rewrite Hl. unfold finally_close. cbn [st_world st_conn st_log].
  simpl. repeat split; try assumption.
  intros [H|[H|[H|H]]]; try discriminate H.
  apply in_app_or in H. destruct H as [H|[H|[]]];
    [exact (Hno H) | discriminate H].
Qed.

Lemma get_database_schema_describes_witness :
  returned
    (run (get_database_schema Replay.env "shop.db")
       (Replay.session
          [Replay.Connected;
           Replay.Executed (Cursor (Some ["name"]) (-1) PNone);
           Replay.Fetched [[PStr "t"]];
           Replay.Executed (Cursor None (-1) PNone);
           Replay.Fetched
             [[PInt 0; PStr "id"; PStr "INTEGER"; PInt 0; PNone; PInt 1];
              [PInt 1; PStr "name"; PStr "TEXT"; PInt 1; PStr "'?'"; PInt 0]]]))
    = Ok [TableInfo (PStr "t")
            [ColumnDef (PStr "id") (PStr "INTEGER") false PNone true;
             ColumnDef (PStr "name") (PStr "TEXT") true (PStr "'?'") false]].
Proof.
  refine (proj1 (get_database_schema_describes Replay.env "shop.db"
                   (Replay.session
                      [Replay.Connected;
                       Replay.Executed (Cursor (Some ["name"]) (-1) PNone);
                       Replay.Fetched [[PStr "t"]];
                       Replay.Executed (Cursor None (-1) PNone);
                       Replay.Fetched
                         [[PInt 0; PStr "id"; PStr "INTEGER"; PInt 0; PNone;
                           PInt 1];
                          [PInt 1; PStr "name"; PStr "TEXT"; PInt 1;
                           PStr "'?'"; PInt 0]]])
                   _ _ _ (Replay.session []) tt _ [[PStr "t"]] _
                   eq_refl eq_refl eq_refl _)).
  eapply describes_cons.
  - reflexivity.
  - reflexivity.
  - reflexivity.
  - apply describes_nil.
Defined.

(* ------------------------------------------------------------------ *)
(** ** Records through the store and back *)

Lemma dict_set_fresh (k : string) (v : pyval) (d : dict) :
  ~ In k (keys d) -> dict_set k v d = (d ++ [(k, v)])%list.
Proof.
  induction d as [|[k0 v0] d IH]; simpl; intros Hk; [reflexivity|].
  destruct (String.eqb k k0) eqn:Hkk.
  - apply String.eqb_eq in Hkk. exfalso. apply Hk. now left.
  - rewrite IH; [reflexivity|]. intros H. apply Hk. now right.
Qed.

Lemma fold_zip_fresh (d acc : dict) :
  NoDup (keys acc ++ keys d) ->
  fold_left (fun d p => dict_set (fst p) (snd p) d)
    (zip (keys d) (values d)) acc
    = (acc ++ d)%list.
Proof.
  revert acc. induction d as [|[k v] d IH]; intros acc Hnd; simpl.
  - now rewrite app_nil_r.
  - simpl in Hnd. rewrite dict_set_fresh.
    + rewrite IH.
      * now rewrite <- app_assoc.
      * unfold keys in *. rewrite map_app. simpl. rewrite <- app_assoc.
        exact Hnd.
    + apply NoDup_remove_2 in Hnd. intros H. apply Hnd.
      apply in_or_app. now left.
Qed.

(** A record is rebuilt from its keys and its values: pairing the keys of a
    dict with its values, as [execute_sql_query] pairs column names with a
    row, gives the dict back, keys in the same order. *)
Lemma dict_of_zip_keys_values (d : dict) :
  NoDup (keys d) -> dict_of_pairs (zip (keys d) (values d)) = d.
Proof.
  intros Hnd. unfold dict_of_pairs. now rewrite fold_zip_fresh.
Qed.

(** X12.  [insert_row] passes the values of a record in the order of its keys,
    and [execute_sql_query] pairs a row with the column names in their
    order.  So when the store answers a SELECT with the columns the record
    was inserted with and one row that holds the values bound by
    [insert_row], [execute_sql_query] returns that record: same keys, same
    order, same values. *)
Theorem select_returns_inserted_record
  (E1 E2 : Env) (table query p1 p2 : string) (data : dict)
  (w : world E1) (v v1 v2 v3 : world E2) (c : conn E2) (cur : cursor)
  (sql : string) (params : list pyval) :
  NoDup (keys data) ->
  In (EExecute sql params) (calls (run (insert_row E1 table data p1) w)) ->
  begins_with_select query ->
  connect E2 p2 v = (Ok c, v1) ->
  execute E2 c query [] v1 = (Ok cur, v2) ->
  description cur = Some (keys data) ->
  fetchall E2 c v2 = (Ok [params], v3) ->
  returned (run (execute_sql_query E2 query p2) v) = Ok [data].
Proof.
  intros Hnd Hins Hsel Hconn Hexec Hdesc Hfetch.
  assert (Hp : params = values data).
  { destruct data as [|kv data]; [destruct Hins|].
    apply write_tool_statement in Hins. now destruct Hins. }
  subst params. apply is_select_spec in Hsel.
  rewrite (execute_sql_query_read E2 query p2 v v1 v2 v3 c cur (keys data)
             [values data] Hsel Hconn Hexec Hdesc Hfetch).
  simpl. now rewrite dict_of_zip_keys_values.
Qed.

Lemma select_returns_inserted_record_witness :
  returned
    (run (execute_sql_query Replay.env "SELECT name, age FROM t WHERE id = 1"
            "shop.db")
       (Replay.session
          [Replay.Connected;
           Replay.Executed (Cursor (Some ["name"; "age"]) (-1) PNone);
           Replay.Fetched [[PStr "Alice"; PInt 30]]]))
    = Ok [[("name", PStr "Alice"); ("age", PInt 30)]].
Proof.
  assert (Hnd : NoDup (keys [("name", PStr "Alice"); ("age", PInt 30)])).
  { repeat constructor; simpl; intuition discriminate. }
  assert (Hins : In (EExecute "INSERT INTO t (name, age) VALUES (?, ?)"
                       [PStr "Alice"; PInt 30])
                   (calls
                      (run (insert_row Replay.env "t"
                              [("name", PStr "Alice"); ("age", PInt 30)]
                              "shop.db")
                         (Replay.session
                            [Replay.Connected;
                             Replay.Executed (Cursor None 1 (PInt 1));
                             Replay.Committed])))).
  { vm_compute. right. left. reflexivity. }
  assert (Hsel : begins_with_select "SELECT name, age FROM t WHERE id = 1").
  { exists "", "SELECT", " name, age FROM t WHERE id = 1". repeat split. }
  exact (select_returns_inserted_record Replay.env Replay.env "t"
           "SELECT name, age FROM t WHERE id = 1" "shop.db" "shop.db"
           [("name", PStr "Alice"); ("age", PInt 30)]
           _ (Replay.session
                [Replay.Connected;
                 Replay.Executed (Cursor (Some ["name"; "age"]) (-1) PNone);
                 Replay.Fetched [[PStr "Alice"; PInt 30]]])
           _ _ _ tt _ _ _ Hnd Hins Hsel eq_refl eq_refl eq_refl eq_refl).
Defined.

(** X13.  The results carry no tag.  A read that succeeds with a single column
    named "error" and a single row holding a text returns the very value
    that a call returns when it fails with that text as its message. *)
Theorem failure_and_rows_share_a_shape
  (E1 E2 : Env) (q1 q2 p1 p2 msg : string) (w w1 w2 w3 : world E1)
  (c : conn E1) (cur : cursor) (v v1 : world E2) (e : exn) :
  begins_with_select q1 ->
  connect E1 p1 w = (Ok c, w1) ->
  execute E1 c q1 [] w1 = (Ok cur, w2) ->
  description cur = Some ["error"] ->
  fetchall E1 c w2 = (Ok [[PStr msg]], w3) ->
  connect E2 p2 v = (Raise e, v1) ->
  exn_str e = msg ->
  returned (run (execute_sql_query E1 q1 p1) w)
    = returned (run (execute_sql_query E2 q2 p2) v).
Proof.
  intros Hsel Hconn Hexec Hdesc Hfetch Hfail Hmsg.
  apply is_select_spec in Hsel.
  rewrite (execute_sql_query_read E1 q1 p1 w w1 w2 w3 c cur ["error"]
             [[PStr msg]] Hsel Hconn Hexec Hdesc Hfetch).
  unfold execute_sql_query, run, try_finally, try_except.
  unfold bind at 1. rewrite (connect_raise p2 (State v None []) e v1 Hfail).
  simpl. now rewrite Hmsg.
Qed.

Lemma failure_and_rows_share_a_shape_witness :
  returned
    (run (execute_sql_query Replay.env "SELECT 'disk full' AS error" "a.db")
       (Replay.session
          [Replay.Connected;
           Replay.Executed (Cursor (Some ["error"]) (-1) PNone);
           Replay.Fetched [[PStr "disk full"]]]))
    = returned
        (run (execute_sql_query Replay.env "SELECT 1" "b.db")
           (Replay.session
              [Replay.ConnectFails (Exn OperationalError "disk full")])).
Proof.
  assert (Hsel : begins_with_select "SELECT 'disk full' AS error").
  { exists "", "SELECT", " 'disk full' AS error". repeat split. }
  exact (failure_and_rows_share_a_shape Replay.env Replay.env
           "SELECT 'disk full' AS error" "SELECT 1" "a.db" "b.db" "disk full"
           (Replay.session
              [Replay.Connected;
               Replay.Executed (Cursor (Some ["error"]) (-1) PNone);
               Replay.Fetched [[PStr "disk full"]]])
           _ _ _ tt _
           (Replay.session
              [Replay.ConnectFails (Exn OperationalError "disk full")])
           _ _ Hsel eq_refl eq_refl eq_refl eq_refl eq_refl eq_refl).
Defined.

(* ------------------------------------------------------------------ *)
(** ** Result columns that share a name *)

Lemma first_seen_In (y : string) (l : list string) :
  In y (first_seen l) <-> In y l.
Proof.
  induction l as [|x r IH]; simpl; [tauto|].
  rewrite filter_In, IH, negb_true_iff, String.eqb_neq.
  destruct (string_dec x y) as [->|Hne]; [tauto|].
  split.
  - intros [H|[H _]]; auto.
  - intros [H|H]; [contradiction|]. right. split; [exact H|]. congruence.
Qed.

Lemma filter_length_le {A : Type} (p : A -> bool) (l : list A) :
  length (filter p l) <= length l.
Proof.
  induction l as [|x l IH]; simpl; [lia|]. destruct (p x); simpl; lia.
Qed.

Lemma filter_length_lt {A : Type} (p : A -> bool) (l : list A) (x : A) :
  In x l -> p x = false -> length (filter p l) < length l.
Proof.
  induction l as [|y l IH]; intros Hin Hp; [destruct Hin|].
  simpl. destruct Hin as [->|Hin].
  - rewrite Hp. pose proof (filter_length_le p l). lia.
  - specialize (IH Hin Hp). destruct (p y); simpl; lia.
Qed.

Lemma first_seen_length_le (l : list string) :
  length (first_seen l) <= length l.
Proof.
  induction l as [|x r IH]; simpl; [lia|].
  pose proof (filter_length_le (fun y => negb (String.eqb y x)) (first_seen r)).
  lia.
Qed.

Lemma first_seen_distinct (l : list string) : NoDup l -> first_seen l = l.
Proof.
  induction 1 as [|x r Hx Hr IH]; simpl; [reflexivity|].
  rewrite IH. f_equal. apply forallb_filter_id.
  apply forallb_forall. intros y Hy. apply negb_true_iff, String.eqb_neq.
  congruence.
Qed.

Lemma first_seen_repeated (l : list string) :
  ~ NoDup l -> length (first_seen l) < length l.
Proof.
  induction l as [|x r IH]; intros Hnd.
  - exfalso. apply Hnd. constructor.
  - simpl. destruct (in_dec string_dec x r) as [Hin|Hout].
    + apply first_seen_In in Hin.
      assert (Hp : negb (String.eqb x x) = false)
        by now rewrite String.eqb_refl.
      pose proof (filter_length_lt (fun y => negb (String.eqb y x))
                    (first_seen r) x Hin Hp) as Hlt.
      pose proof (first_seen_length_le r). lia.
    + assert (Hr : ~ NoDup r).
      { intros H. apply Hnd. now constructor. }
      specialize (IH Hr).
      pose proof (filter_length_le (fun y => negb (String.eqb y x))
                    (first_seen r)).
      lia.
Qed.

(** X14.  A record built by [execute_sql_query] from a row as wide as the result
    description has one entry per distinct column name: as many entries as
    columns when the names are pairwise distinct, and fewer as soon as a
    name repeats, the earlier values of that name being dropped. *)
Theorem repeated_column_names_lose_values
  (names : list string) (row : list pyval) :
  length row = length names ->
  length (dict_of_pairs (zip names row)) = length (first_seen names)
  /\ (NoDup names -> length (dict_of_pairs (zip names row)) = length names)
  /\ (~ NoDup names -> length (dict_of_pairs (zip names row)) < length names).
Proof.
  intros Hlen.
  assert (H : length (dict_of_pairs (zip names row))
              = length (first_seen names)).
  { rewrite <- (length_map fst (dict_of_pairs (zip names row))).
    change (map fst (dict_of_pairs (zip names row)))
      with (keys (dict_of_pairs (zip names row))).
    now rewrite keys_dict_of_pairs, map_fst_zip. }
  rewrite H. repeat apply conj.
  - reflexivity.
  - intros Hnd. now rewrite first_seen_distinct.
  - apply first_seen_repeated.
Qed.

Lemma repeated_column_names_lose_values_witness :
  length (dict_of_pairs (zip ["id"; "name"; "id"] [PInt 1; PStr "Ann"; PInt 7]))
    < 3.
Proof.
  assert (Hnd : ~ NoDup ["id"; "name"; "id"]).
  { intros H. inversion H as [|x l Hin _]. apply Hin. simpl. tauto. }
  exact (proj2 (proj2 (repeated_column_names_lose_values
                         ["id"; "name"; "id"] [PInt 1; PStr "Ann"; PInt 7]
                         eq_refl)) Hnd).
Defined.
